(** * fms-fsdp muP search: the training loop and the coordinate search

    A shallow embedding of [src/fms_fsdp/utils/train_utils.py] ([train]) and
    of [src/main_training.py] ([run], [set_mups] and the search loop of
    [main]), together with the properties of these functions.

    Python numbers are modelled after CPython: [int] is [Z], [float] is an
    IEEE 754 binary64 value ([spec_float] of the Standard Library, with its
    correctly rounded operations), a 0-dimensional float32 tensor is a
    binary32 value.  Exceptions are an error monad.  Objects whose
    attributes are read and written by name ([getattr], [setattr],
    [deepcopy]) live in a heap of attribute dictionaries. *)

From Stdlib Require Import ZArith Bool List Lia.
From Stdlib Require Import Floats.SpecFloat.
From stdpp Require Import gmap strings list.

Open Scope Z_scope.

(** ** Exceptions *)

Inductive exn :=
| AttributeError | TypeError | ZeroDivisionError | OverflowError
| ValueError | UnboundLocalError | IndexError.

Inductive result (A : Type) :=
| Ok (a : A)
| Raise (e : exn).
Arguments Ok {A} a.
Arguments Raise {A} e.

#[export] Instance result_ret : MRet result := fun _ a => Ok a.
#[export] Instance result_bind : MBind result := fun _ _ f r =>
  match r with
  | Ok a => f a
  | Raise e => Raise e
  end.

Definition is_ok {A} (r : result A) : bool :=
  match r with Ok _ => true | Raise _ => false end.

(** ** IEEE 754 numbers *)

Definition is_nan (f : spec_float) : bool :=
  match f with S754_nan => true | _ => false end.

Definition is_zero (f : spec_float) : bool :=
  match f with S754_zero _ => true | _ => false end.

Definition is_finite (f : spec_float) : bool :=
  match f with S754_zero _ | S754_finite _ _ _ => true | _ => false end.

(** binary64: the Python [float]. *)
Module F64.
Definition prec : Z := 53.
Definition emax : Z := 1024.
Definition valid : spec_float -> bool := valid_binary prec emax.
Definition add : spec_float -> spec_float -> spec_float := SFadd prec emax.
Definition sub : spec_float -> spec_float -> spec_float := SFsub prec emax.
Definition mul : spec_float -> spec_float -> spec_float := SFmul prec emax.
Definition div : spec_float -> spec_float -> spec_float := SFdiv prec emax.
(** The nearest binary64 of [m * 2^e] (ties to even). *)
Definition of_scaled (m e : Z) : spec_float :=
    binary_normalize prec emax m e false.
Definition of_Z (z : Z) : spec_float := of_scaled z 0.
Definition one : spec_float := Eval vm_compute in of_Z 1.
Definition two : spec_float := Eval vm_compute in of_Z 2.
End F64.

(** binary32: the element type of the statistics tensor. *)
Module F32.
Definition prec : Z := 24.
Definition emax : Z := 128.
Definition add : spec_float -> spec_float -> spec_float := SFadd prec emax.
Definition div : spec_float -> spec_float -> spec_float := SFdiv prec emax.
Definition of_Z (z : Z) : spec_float :=
    binary_normalize prec emax z 0 false.
Definition zero : spec_float := S754_zero false.
Definition one : spec_float := Eval vm_compute in of_Z 1.
Definition six : spec_float := Eval vm_compute in of_Z 6.
(** [Tensor.item()]: every binary32 value is a binary64 value. *)
Definition to_f64 (f : spec_float) : spec_float :=
    match f with
    | S754_finite s m e => binary_round F64.prec F64.emax s m e
    | _ => f
    end.
End F32.

(** Exact comparison of an integer with a float, as CPython compares an
    [int] with a [float]: no rounding of the integer. *)
Definition Zcompare_float (z : Z) (f : spec_float) : option comparison :=
  match f with
  | S754_nan => None
  | S754_infinity s => Some (if s then Gt else Lt)
  | S754_zero _ => Some (z ?= 0)
  | S754_finite s m e =>
      let v := if s then Zneg m else Zpos m in
      Some (if 0 <=? e then z ?= v * 2 ^ e else z * 2 ^ (- e) ?= v)
  end.

(** ** Python values *)

Inductive value :=
| VInt (z : Z)
| VFloat (f : spec_float)
| VStr (s : string)
| VNone
| VTensor (f : spec_float).   (* a 0-dimensional float32 tensor *)

(** [float(z)] for an [int]: rounds to nearest, [OverflowError] when the
    integer is too large. *)
Definition float_of_int (z : Z) : result spec_float :=
  let f := F64.of_Z z in
  if is_finite f then Ok f else Raise OverflowError.

(** The operand of a float operation: an [int] is converted first. *)
Definition as_float (v : value) : result spec_float :=
  match v with
  | VInt z => float_of_int z
  | VFloat f => Ok f
  | _ => Raise TypeError
  end.

(** [a * b] on numbers. *)
Definition py_mul (a b : value) : result value :=
  match a, b with
  | VInt x, VInt y => Ok (VInt (x * y))
  | _, _ => x ← as_float a; y ← as_float b; Ok (VFloat (F64.mul x y))
  end.

(** [a + b] on numbers. *)
Definition py_add (a b : value) : result value :=
  match a, b with
  | VInt x, VInt y => Ok (VInt (x + y))
  | _, _ => x ← as_float a; y ← as_float b; Ok (VFloat (F64.add x y))
  end.

(** [a < b] and [a <= b] on numbers. *)
Definition py_compare (a b : value) : result (option comparison) :=
  match a, b with
  | VInt x, VInt y => Ok (Some (x ?= y))
  | VFloat x, VFloat y => Ok (SFcompare x y)
  | VInt x, VFloat y => Ok (Zcompare_float x y)
  | VFloat x, VInt y => Ok (CompOpp <$> Zcompare_float y x)
  | _, _ => Raise TypeError
  end.

Definition py_lt (a b : value) : result bool :=
  c ← py_compare a b;
  Ok (match c with Some Lt => true | _ => false end).

Definition py_le (a b : value) : result bool :=
  c ← py_compare a b;
  Ok (match c with Some (Lt | Eq) => true | _ => false end).

(** [x.item()]: defined on tensors; [int] and [float] have no such
    attribute. *)
Definition py_item (v : value) : result value :=
  match v with
  | VTensor f => Ok (VFloat (F32.to_f64 f))
  | _ => Raise AttributeError
  end.

(** [torch.isnan(x)]: the argument must be a tensor. *)
Definition torch_isnan (v : value) : result bool :=
  match v with
  | VTensor f => Ok (is_nan f)
  | _ => Raise TypeError
  end.

(** [int(x)] for a float: truncation towards zero. *)
Definition int_of_float (f : spec_float) : result Z :=
  match f with
  | S754_nan => Raise ValueError
  | S754_infinity _ => Raise OverflowError
  | S754_zero _ => Ok 0
  | S754_finite s m e =>
      let a := Z.shiftl (Zpos m) e in
      Ok (if s then - a else a)
  end.

(** [x / y] on floats: CPython raises on a zero divisor. *)
Definition float_div (x y : spec_float) : result spec_float :=
  if is_zero y then Raise ZeroDivisionError else Ok (F64.div x y).

(** [a % b] on ints: the result has the sign of the divisor, as [Z.modulo]. *)
Definition int_mod (a b : Z) : result Z :=
  if b =? 0 then Raise ZeroDivisionError else Ok (a mod b).

(** ** Powers of two

    [2 ** x] for a float [x] is CPython's [float_pow]: the special cases
    are decided before the C library is called, and an overflowing result
    raises.  The C library's [pow(2.0, x)] on finite non-zero [x] is a
    parameter of the development. *)

Section Pow.
Variable libm_pow2 : spec_float -> spec_float.

Definition float_pow2 (x : spec_float) : result spec_float :=
  match x with
  | S754_zero _ => Ok F64.one
  | S754_nan => Ok S754_nan
  | S754_infinity false => Ok (S754_infinity false)
  | S754_infinity true => Ok (S754_zero false)
  | S754_finite _ _ _ =>
      match libm_pow2 x with
      | S754_infinity _ => Raise OverflowError
      | r => Ok r
      end
  end.

(** [2 ** x]: an exact integer power for a non-negative [int], the float
    power otherwise. *)
Definition py_pow2 (x : value) : result value :=
  match x with
  | VInt n =>
      if 0 <=? n then Ok (VInt (2 ^ n))
      else f ← float_of_int n; r ← float_pow2 f; Ok (VFloat r)
  | VFloat f => r ← float_pow2 f; Ok (VFloat r)
  | _ => Raise TypeError
  end.

End Pow.

(** A C library that is exact on integer-valued exponents (as every
    conforming [pow] is); other exponents are not used with it. *)
Definition integral_exponent (x : spec_float) : option Z :=
  match x with
  | S754_zero _ => Some 0
  | S754_finite s m e =>
      let v := if s then Zneg m else Zpos m in
      if 0 <=? e then Some (v * 2 ^ e)
      else if v mod 2 ^ (- e) =? 0 then Some (v / 2 ^ (- e)) else None
  | _ => None
  end.

Definition pow2_integral (x : spec_float) : spec_float :=
  match integral_exponent x with
  | Some n => F64.of_scaled 1 n
  | None => S754_nan
  end.

(** ** Objects and the heap *)

Abbreviation obj := (gmap string value).
Abbreviation loc := positive.
Abbreviation heap := (gmap loc obj).

Definition getattr (h : heap) (l : loc) (k : string) : result value :=
  match h !! l with
  | Some o =>
      match o !! k with
      | Some v => Ok v
      | None => Raise AttributeError
      end
  | None => Raise AttributeError
  end.

Definition setattr (h : heap) (l : loc) (k : string) (v : value) : heap :=
  alter (fun o : obj => <[k := v]> o) l h.

(** [deepcopy(cfg)]: the attributes of a configuration are immutable
    scalars, so the copy is a new object with the same attribute
    dictionary. *)
Definition deepcopy (h : heap) (l : loc) : heap * loc :=
  let l' := fresh (dom h) in
  (<[l' := default ∅ (h !! l)]> h, l').

(** ** The coordinate search of [main] (src/main_training.py, 213-269) *)

Definition mup_params : list string :=
  [ "mup_emb_scale"; "mup_head_scale"; "mup_ffn_init";
    "mup_attn_init"; "mup_attn_temp"; "mup_lr_dscale" ]%string.

Fixpoint foldM {A B} (f : B -> A -> result A) (l : list B) (a : A)
  : result A :=
  match l with
  | [] => Ok a
  | b :: l' => a' ← f b a; foldM f l' a'
  end.

(** [l[j]] and [l[j] = x] on a Python list. *)
Definition list_get {A} (l : list A) (j : nat) : result A :=
  match l !! j with
  | Some x => Ok x
  | None => Raise IndexError
  end.

Definition list_set {A} (l : list A) (j : nat) (x : A) : result (list A) :=
  if decide (j < length l)%nat then Ok (<[j := x]> l) else Raise IndexError.

Record search_state := {
  s_heap : heap;                  (* the objects allocated so far *)
  mup_scale_vals : list value;    (* the current exponent vector *)
  best_loss : value;
  trials : nat                    (* calls of [run] made so far *)
}.

(** The acceptance test of lines 257-259, after the trial of [candidate]
    has returned [new_loss]. *)
Definition accept (st : search_state) (h : heap) (candidate : list value)
    (new_loss : value) : result search_state :=
  better ← py_lt new_loss (best_loss st);
  Ok {| s_heap := h;
        mup_scale_vals :=
          if better : bool then candidate else mup_scale_vals st;
        best_loss := best_loss st;
        trials := S (trials st) |}.

Section Search.
Variable libm_pow2 : spec_float -> spec_float.
(** One training trial: the [n]-th call of [run], on a configuration with
    the given attributes, returns a loss or raises. *)
Variable run : nat -> obj -> result value.
(** [explore_ratio = cfg.mup_explore_range], captured by [set_mups]. *)
Variable explore_ratio : value.
(** The address of the base configuration [cfg]. *)
Variable cfg : loc.

(** The scaled value [getattr(cfg, k) * 2**(v*explore_ratio)]. *)
Definition scaled (h : heap) (k : string) (v : value) : result value :=
  base ← getattr h cfg k;
  e ← py_mul v explore_ratio;
  p ← py_pow2 libm_pow2 e;
  py_mul base p.

(** The loop of [set_mups] over [zip(mup_k, mup_v)]. *)
Fixpoint set_mups_loop (h : heap) (new_cfg : loc)
    (kv : list (string * value)) : result heap :=
  match kv with
  | [] => Ok h
  | (k, v) :: rest =>
      x ← scaled h k v;
      set_mups_loop (setattr h new_cfg k x) new_cfg rest
  end.

(** [set_mups(mup_k, mup_v, cfg)]; the report it prints is not modelled. *)
Definition set_mups (h : heap) (mup_k : list string) (mup_v : list value)
  : result (heap * loc) :=
  let '(h1, new_cfg) := deepcopy h cfg in
  h2 ← set_mups_loop h1 new_cfg (zip mup_k mup_v);
  Ok (h2, new_cfg).

(** One pass of the body of [for sign in [-1,1]] (lines 252-259) in round
    [i] for parameter [j]. *)
Definition probe (i : Z) (j : nat) (start_val : value) (sign : Z)
    (st : search_state) : result search_state :=
  p ← py_pow2 libm_pow2 (VInt (- i - 1));
  d ← py_mul (VInt sign) p;
  x ← py_add start_val d;
  candidate ← list_set (mup_scale_vals st) j x;
  '(h, new_cfg) ← set_mups (s_heap st) mup_params candidate;
  new_loss ← run (trials st) (default ∅ (h !! new_cfg));
  accept st h candidate new_loss.

(** The body of [for j in range(len(mup_params))] (lines 249-259). *)
Definition advance (i : Z) (j : nat) (st : search_state)
  : result search_state :=
  start_val ← list_get (mup_scale_vals st) j;
  st1 ← probe i j start_val (-1) st;
  probe i j start_val 1 st1.

(** One round [i] of the search (lines 248-263). *)
Definition round (i : nat) (st : search_state) : result search_state :=
  foldM (advance (Z.of_nat i)) (seq 0 (length mup_params)) st.

(** The baseline trial (lines 224, 242-243). *)
Definition baseline (h : heap) : result search_state :=
  let vals := (fun _ => VInt 0) <$> mup_params in
  '(h1, new_cfg) ← set_mups h mup_params vals;
  loss ← run 0%nat (default ∅ (h1 !! new_cfg));
  Ok {| s_heap := h1; mup_scale_vals := vals;
        best_loss := loss; trials := 1%nat |}.

(** The looped search, [for i in range(cfg.mup_search_steps)]. *)
Definition search (h : heap) (mup_search_steps : Z) : result search_state :=
  st ← baseline h;
  foldM round (seq 0 (Z.to_nat mup_search_steps)) st.

(** The values reported last (line 268):
    [getattr(cfg, mup_params[i]) * 2**(explore_ratio*mup_scale_vals[i])]. *)
Definition final_value (h : heap) (vals : list value) (i : nat)
  : result value :=
  k ← list_get mup_params i;
  base ← getattr h cfg k;
  v ← list_get vals i;
  e ← py_mul explore_ratio v;
  p ← py_pow2 libm_pow2 e;
  py_mul base p.

Definition final (h : heap) (vals : list value) : result (list value) :=
  mapM (final_value h vals) (seq 0 (length mup_params)).

End Search.

(** ** The training loop [train] (src/fms_fsdp/utils/train_utils.py, 20-115) *)

(** [ddp_stats = torch.zeros(3)]: summed loss, summed gradient norm, step
    count.  All three slots are float32 values, the count included: it is
    incremented, summed by [all_reduce] and divided by in float32. *)
Record stats := {
  loss_sum : spec_float;
  gnorm_sum : spec_float;
  steps : spec_float
}.

Definition stats_zero : stats :=
  {| loss_sum := F32.zero; gnorm_sum := F32.zero; steps := F32.zero |}.

(** [ReduceOp.SUM] on two vectors: slot by slot, in float32. *)
Definition stats_add (a b : stats) : stats :=
  {| loss_sum := F32.add (loss_sum a) (loss_sum b);
     gnorm_sum := F32.add (gnorm_sum a) (gnorm_sum b);
     steps := F32.add (steps a) (steps b) |}.

(** What one optimisation step shows to the loop: [loss.item()] and
    [model.clip_grad_norm_(...).item()].  The model, the optimizer and the
    data are outside the loop's logic. *)
Record batch := {
  loss_item : spec_float;
  gnorm_item : spec_float
}.

(** The integer fields of [cfg] that [train] reads. *)
Record train_cfg := {
  num_steps : Z;
  report_interval : Z;
  batch_size : Z;
  seq_length : Z
}.

(** The variables assigned at a reporting boundary and printed at the
    end (lines 75-83). *)
Record report := {
  current_loss : spec_float;
  total_tokens_seen : Z;
  current_gnorm : spec_float;
  current_step_time : spec_float;
  current_throughput : Z
}.

(** One call of [dist.all_reduce]: the step, the local vector passed in
    and the sum it was overwritten with. *)
Record reduction := {
  red_step : Z;
  red_local : stats;
  red_sum : stats
}.

(** The local variables of [train], and what it has done so far. *)
Record locals := {
  ddp_stats : stats;
  start : spec_float;
  train_loss : value;
  batch_idx : option Z;           (* unbound before the first iteration *)
  last_report : option report;    (* unbound before the first boundary *)
  clock_calls : nat;              (* calls of [time.time()] so far *)
  optimizer_steps : Z;            (* calls of [optimizer.step()] so far *)
  reductions : list reduction     (* calls of [all_reduce], latest first *)
}.

Inductive exit_reason :=
| Exhausted        (* the data loader ran out *)
| BudgetReached    (* [batch_idx > cfg.num_steps] *)
| Diverged.        (* the divergence guard *)

(** [ddp_stats[0] / ddp_stats[2]] and [ddp_stats[1] / ddp_stats[2]]. *)
Definition mean_loss (s : stats) : spec_float :=
  F32.div (loss_sum s) (steps s).

Definition mean_gnorm (s : stats) : spec_float :=
  F32.div (gnorm_sum s) (steps s).

(** [torch.isnan(train_loss) or train_loss > 6]. *)
Definition bad_loss (l : spec_float) : bool :=
  is_nan l || SFltb F32.six l.

(** The condition of line 96. *)
Definition guard (idx : Z) (l : spec_float) : bool :=
  (idx >? 999) && bad_loss l.

Section Train.
Variable cfg : train_cfg.
Variable rank : Z.
(** [int(os.environ["WORLD_SIZE"])]. *)
Variable world_size : Z.
Variables start_step tokens_seen : Z.
(** [clock n] is what the [n]-th call of [time.time()] returns. *)
Variable clock : nat -> spec_float.
(** [peers k]: the vectors the other workers contribute to the reduction
    issued at step [k]. *)
Variable peers : Z -> list stats.

Definition all_reduce (k : Z) (local : stats) : stats :=
  fold_left stats_add (peers k) local.

Definition init_locals : locals :=
  {| ddp_stats := stats_zero;
     start := clock 0%nat;          (* [loop_start] is the call after it *)
     train_loss := VInt (-1);
     batch_idx := None;
     last_report := None;
     clock_calls := 2%nat;
     optimizer_steps := 0;
     reductions := [] |}.

Definition bind_batch_idx (idx : Z) (st : locals) : locals :=
  {| ddp_stats := ddp_stats st; start := start st;
     train_loss := train_loss st; batch_idx := Some idx;
     last_report := last_report st; clock_calls := clock_calls st;
     optimizer_steps := optimizer_steps st; reductions := reductions st |}.

(** Lines 45-60: one optimisation step and the accumulation;
    [ddp_stats[2] += 1] adds 1.0 in float32. *)
Definition train_step (b : batch) (st : locals) : locals :=
  {| ddp_stats :=
       {| loss_sum := F32.add (loss_sum (ddp_stats st)) (loss_item b);
          gnorm_sum := F32.add (gnorm_sum (ddp_stats st)) (gnorm_item b);
          steps := F32.add (steps (ddp_stats st)) F32.one |};
     start := start st; train_loss := train_loss st;
     batch_idx := batch_idx st; last_report := last_report st;
     clock_calls := clock_calls st;
     optimizer_steps := optimizer_steps st + 1;
     reductions := reductions st |}.

(** [int(cfg.batch_size * cfg.seq_length / current_step_time)]. *)
Definition throughput (step_time : spec_float) : result Z :=
  tokens ← float_of_int (batch_size cfg * seq_length cfg);
  q ← float_div tokens step_time;
  int_of_float q.

(** Lines 66-95: the body of the reporting boundary at step [k].  Returns
    the new [train_loss] tensor with the updated variables. *)
Definition report_block (k : Z) (st : locals)
  : result (spec_float * locals) :=
  let local := ddp_stats st in
  let reduced := all_reduce k local in
  let loss := mean_loss reduced in
  let g_norm := mean_gnorm reduced in
  let c := clock_calls st in       (* call [c]: [elapsed_time] *)
  let new_tokens_seen :=
    (k - start_step) * world_size * batch_size cfg * seq_length cfg in
  interval ← float_of_int (report_interval cfg);
  step_time ← float_div (F64.sub (clock (S c)) (start st)) interval;
  thr ← throughput step_time;
  Ok (loss,
      {| ddp_stats := stats_zero;
         start := clock (S (S c));
         train_loss := VTensor loss;
         batch_idx := batch_idx st;
         last_report :=
           Some {| current_loss := F32.to_f64 loss;
                   total_tokens_seen := tokens_seen + new_tokens_seen;
                   current_gnorm := F32.to_f64 g_norm;
                   current_step_time := step_time;
                   current_throughput := thr |};
         clock_calls := S (S (S c));
         optimizer_steps := optimizer_steps st;
         reductions :=
           {| red_step := k; red_local := local; red_sum := reduced |}
           :: reductions st |}).

(** Lines 42-97: the loop over [enumerate(train_loader, start_step + 1)]. *)
Fixpoint train_loop (batches : list batch) (idx : Z) (st : locals)
  : result (exit_reason * locals) :=
  match batches with
  | [] => Ok (Exhausted, st)
  | b :: rest =>
      let st := bind_batch_idx idx st in
      if idx >? num_steps cfg then Ok (BudgetReached, st)
      else
        let st := train_step b st in
        r ← int_mod idx (report_interval cfg);
        if r =? 0 then
          '(loss, st') ← report_block idx st;
          if guard idx loss then Ok (Diverged, st')
          else train_loop rest (idx + 1) st'
        else train_loop rest (idx + 1) st
  end.

(** Lines 99-114: the summary printed by rank 0 reads variables that are
    bound only once the loop has passed a reporting boundary. *)
Definition print_summary (st : locals) : result unit :=
  if rank =? 0 then
    match batch_idx st, last_report st with
    | Some _, Some _ => Ok tt
    | _, _ => Raise UnboundLocalError
    end
  else Ok tt.

(** Line 115: [train_loss.item() if not torch.isnan(train_loss) else 100]. *)
Definition return_value (st : locals) : result value :=
  nan ← torch_isnan (train_loss st);
  if negb nan then py_item (train_loss st) else Ok (VInt 100).

Definition train (batches : list batch) : result value :=
  '(_, st) ← train_loop batches (start_step + 1) init_locals;
  _ ← print_summary st;
  return_value st.


End Train.

(** The boundary steps among the steps [start_step + 1 .. start_step + n]. *)
Definition boundary_steps (interval start_step n : Z) : list Z :=
  filter (fun k => k mod interval = 0) (seqZ (start_step + 1) n).

(** ** The learning-rate schedule of [run] (src/main_training.py, 156-168) *)

(** [a / b] on ints: the float nearest to the quotient, as CPython
    computes it; a zero divisor and a quotient beyond the floats raise. *)
Definition int_truediv (a b : Z) : result spec_float :=
  if b =? 0 then Raise ZeroDivisionError
  else
    let q :=
      match a with
      | 0 => S754_zero (b <? 0)
      | _ => F64.div (S754_finite (a <? 0) (Z.to_pos (Z.abs a)) 0)
                     (S754_finite (b <? 0) (Z.to_pos (Z.abs b)) 0)
      end in
    if is_finite q then Ok q else Raise OverflowError.

(** The float literals [0.1] and [0.5], and [math.pi]. *)
Definition tenth : spec_float :=
  Eval vm_compute in F64.div (F64.of_Z 1) (F64.of_Z 10).
Definition half : spec_float :=
  Eval vm_compute in F64.div (F64.of_Z 1) (F64.of_Z 2).
Definition math_pi : spec_float := S754_finite false 7074237752028440 (-51).

(** [min(a, b)] on floats: [b] when [b < a], else [a]. *)
Definition float_min (a b : spec_float) : spec_float :=
  if SFltb b a then b else a.

Section Schedule.
(** The C library's [cos(x)] on finite [x] and [pow(x, 2.0)] on finite
    positive [x]. *)
Variable libm_cos : spec_float -> spec_float.
Variable libm_sq : spec_float -> spec_float.
(** [cfg.training_stage] and [cfg.num_steps]. *)
Variable training_stage : string.
Variable num_steps : Z.

(** [math.cos(x)]: an infinite argument is a domain error. *)
Definition math_cos (x : spec_float) : result spec_float :=
  match x with
  | S754_infinity _ => Raise ValueError
  | S754_nan => Ok S754_nan
  | _ => Ok (libm_cos x)
  end.

(** [x ** 2] on a float: CPython's [float_pow] with the exponent 2.0. *)
Definition float_square (x : spec_float) : result spec_float :=
  match x with
  | S754_nan => Ok S754_nan
  | S754_infinity _ => Ok (S754_infinity false)
  | S754_zero _ => Ok (S754_zero false)
  | S754_finite _ m e =>
      let a := S754_finite false m e in
      if SFeqb a F64.one then Ok F64.one
      else
        match libm_sq a with
        | S754_infinity _ => Raise OverflowError
        | r => Ok r
        end
  end.

(** Line 158: [1 - x / cfg.num_steps]. *)
Definition annealing_schedule (x : Z) : result spec_float :=
  q ← int_truediv x num_steps;
  Ok (F64.sub F64.one q).

(** Line 160: [min(2000, cfg.num_steps // 20)]. *)
Definition warmup_interval : Z := Z.min 2000 (num_steps / 20).

(** Lines 161-167: the warm-up against the cosine decay. *)
Definition cosine_schedule (x : Z) : result spec_float :=
  w ← int_truediv (Z.min x warmup_interval) warmup_interval;
  s ← float_square (F64.sub F64.one w);
  let warm := F64.sub F64.one s in
  c ← int_truediv (Z.min x num_steps) num_steps;
  k ← math_cos (F64.mul c math_pi);
  let decay :=
    F64.add tenth
      (F64.mul (F64.mul half (F64.sub F64.one tenth)) (F64.add F64.one k)) in
  Ok (float_min warm decay).

Definition schedule (x : Z) : result spec_float :=
  if decide (training_stage = "annealing"%string) then annealing_schedule x
  else cosine_schedule x.

(** Line 168: the function given to [LambdaLR]. *)
Definition lr_lambda (start_step x : Z) : result spec_float :=
  schedule (x + start_step).

End Schedule.

(** ** One trial: the end of [run] (src/main_training.py, 137-186)

    [run] builds the model, the data loader and the optimizer, loads the
    checkpoint, builds the scheduler and calls [train].  The model, the
    loader, the optimizer and the checkpoint are outside this development:
    what [checkpointer.load] returned is a parameter. *)

(** A call with a number of positional arguments other than the number of
    parameters raises before the body runs. *)
Definition call {A} (parameters arguments : nat) (body : result A)
  : result A :=
  if decide (arguments = parameters) then body else Raise TypeError.

Section RunTrial.
Variable libm_cos : spec_float -> spec_float.
Variable libm_sq : spec_float -> spec_float.
Variable training_stage : string.
Variable cfg : train_cfg.
Variables rank world_size : Z.
(** [start_step], [tokens_seen] and [is_resuming] as [checkpointer.load]
    returned them (lines 137-145). *)
Variables start_step tokens_seen : Z.
Variable is_resuming : bool.
Variable clock : nat -> spec_float.
Variable peers : Z -> list stats.

(** Lines 146-147: a run that does not resume starts at step 0.
    Line 168: [LambdaLR] evaluates the function it is given once when it
    is built, at the count 0.
    Lines 174-186: [train] declares nine parameters (train_utils.py
    20-32); [run] passes eleven arguments and applies [.item()] to what
    comes back. *)
Definition run (batches : list batch) : result value :=
  let start_step := if is_resuming then start_step else 0 in
  _ ← lr_lambda libm_cos libm_sq training_stage (num_steps cfg) start_step 0;
  v ← call 9 11
        (train cfg rank world_size start_step tokens_seen clock peers
           batches);
  py_item v.

End RunTrial.

(** ** Well-formed inputs of the scaling rule *)

(** The attribute [k] holds a float. *)
Definition float_attr (o : obj) (k : string) : bool :=
  match o !! k with
  | Some (VFloat f) => F64.valid f
  | _ => false
  end.

(** A number: an [int], or a [float] that is neither infinite nor
    not-a-number. *)
Definition finite_number (v : value) : bool :=
  match v with
  | VInt _ => true
  | VFloat f => is_finite f
  | _ => false
  end.

(** The six muP values of a configuration, in the order of
    [mup_params]. *)
Definition base_values (o : obj) : list value :=
  (fun k => default VNone (o !! k)) <$> mup_params.

(** ** Concrete runs

    Inputs on which the definitions above are evaluated. *)

Module Scenario.

(** The float nearest to [n / d]. *)
Definition dec (n d : Z) : spec_float := F64.div (F64.of_Z n) (F64.of_Z d).

(** A base configuration, at address 1 of an otherwise empty heap. *)
Definition base_cfg : obj :=
  <[ "mup_emb_scale" := VFloat (F64.of_Z 1) ]> (
  <[ "mup_head_scale" := VFloat (F64.of_Z 2) ]> (
  <[ "mup_ffn_init" := VFloat (dec 3 10) ]> (
  <[ "mup_attn_init" := VFloat (dec 5 2) ]> (
  <[ "mup_attn_temp" := VFloat (F64.of_Z 1) ]> (
  <[ "mup_lr_dscale" := VFloat (dec 1 4) ]> (
  <[ "mup_explore_range" := VFloat (F64.of_Z 4) ]> (
  <[ "mup_search_steps" := VInt 1 ]> (
  <[ "num_steps" := VInt 2000 ]> ∅))))))))%string.

Definition cfg : loc := 1%positive.
Definition heap0 : heap := {[ cfg := base_cfg ]}.
Definition explore_ratio : value := VFloat (F64.of_Z 4).

Definition zero_vector : list value := (fun _ => VInt 0) <$> mup_params.

(** An exponent vector as the search produces them. *)
Definition some_vector : list value :=
  [ VFloat (dec (-1) 2); VInt 0; VFloat (dec 3 4); VInt 0; VInt 0;
    VFloat (dec 1 4) ].

(** Trial losses: baseline 2.00; in round 0 the negative probe of
    parameter 2 returns 1.80, its positive probe 2.10, the negative probe
    of parameter 3 returns 1.90; every other trial returns 3.00. *)
Definition trial_losses (n : nat) (_ : obj) : result value :=
  Ok (VFloat (match n with
              | 0%nat => dec 200 100
              | 5%nat => dec 180 100
              | 6%nat => dec 210 100
              | 7%nat => dec 190 100
              | _ => dec 300 100
              end)).

(** A search state whose best loss is the finite value 150. *)
Definition state150 : search_state :=
  {| s_heap := heap0; mup_scale_vals := zero_vector;
     best_loss := VFloat (F64.of_Z 150); trials := 1%nat |}.

(** A search state whose best loss is 2. *)
Definition state2 : search_state :=
  {| s_heap := heap0; mup_scale_vals := zero_vector;
     best_loss := VFloat (F64.of_Z 2); trials := 1%nat |}.

(** Every trial diverges and returns the sentinel. *)
Definition sentinel_trials (_ : nat) (_ : obj) : result value :=
  Ok (VInt 100).

End Scenario.

(** Concrete runs of the training loop. *)
Module Run.

(** [time.time()] advances by 50 seconds from one call to the next. *)
Definition clock (n : nat) : spec_float := F64.of_Z (50 * Z.of_nat n).

Definition cfg : train_cfg :=
  {| num_steps := 2000; report_interval := 100;
     batch_size := 2; seq_length := 1024 |}.

(** [n] steps of loss [l] and gradient norm 1. *)
Definition steady (l : Z) (n : nat) : list batch :=
  replicate n {| loss_item := F32.of_Z l; gnorm_item := F32.of_Z 1 |}.

(** Two workers: the other one contributes, at every boundary, a window of
    100 steps of loss [l] and gradient norm 1. *)
Definition peer (l : Z) (_ : Z) : list stats :=
  [ {| loss_sum := F32.of_Z (100 * l); gnorm_sum := F32.of_Z 100;
       steps := F32.of_Z 100 |} ].

Definition alone (_ : Z) : list stats := [].

(** A run whose loss stays at 7: rank 1 of 2 workers, resumed at step
    700, 400 batches available. *)
Definition loop7 : result (exit_reason * locals) :=
  train_loop cfg 2 700 0 clock (peer 7) (steady 7 400) 701
    (init_locals clock).

Definition train7 : result value :=
  train cfg 1 2 700 0 clock (peer 7) (steady 7 400).

(** A run resumed at step 5 with a reporting interval of 10 and a budget
    of 30 steps. *)
Definition cfg10 : train_cfg :=
  {| num_steps := 30; report_interval := 10;
     batch_size := 2; seq_length := 1024 |}.

Definition resumed : result (exit_reason * locals) :=
  train_loop cfg10 1 5 0 clock alone (steady 2 40) 6 (init_locals clock).

(** A run of 3 steps with a reporting interval of 10: no boundary. *)
Definition cfg3 : train_cfg :=
  {| num_steps := 3; report_interval := 10;
     batch_size := 2; seq_length := 1024 |}.

Definition short (rank : Z) : result value :=
  train cfg3 rank 1 0 0 clock alone (steady 2 8).

(** A run of 10 steps of loss 2 that ends at its budget. *)
Definition cfg_ok : train_cfg :=
  {| num_steps := 10; report_interval := 10;
     batch_size := 2; seq_length := 1024 |}.

(** 400 batches whose loss is not-a-number, one worker, resumed at step
    700. *)
Definition nan_batches : list batch :=
  replicate 400 {| loss_item := S754_nan; gnorm_item := F32.of_Z 1 |}.

Definition loop_nan : result (exit_reason * locals) :=
  train_loop cfg 1 700 0 clock alone nan_batches 701 (init_locals clock).

Definition loop3 : result (exit_reason * locals) :=
  train_loop cfg3 1 0 0 clock alone (steady 2 8) 1 (init_locals clock).

(** The state a run ended with. *)
Definition final_state (r : result (exit_reason * locals)) : locals :=
  match r with
  | Ok (_, st) => st
  | Raise _ => init_locals clock
  end.

(** The library functions of the schedule are not reached in the runs
    below; any function stands for them. *)
Definition libm_unused (x : spec_float) : spec_float := x.


End Run.

(** The step counts as the specification words them: the interval at
    every reduction, or fewer at the last one only ([log] lists the
    reductions latest first). *)
Definition counts_as_specified (interval : Z) (log : list reduction) : bool :=
  match log with
  | [] => true
  | last :: earlier =>
      SFleb (steps (red_local last)) (F32.of_Z interval) &&
      forallb (fun r => SFeqb (steps (red_local r)) (F32.of_Z interval))
        earlier
  end.

(** ** Numbers *)

(** An [int] or a [float]. *)
Definition is_number (v : value) : bool :=
  match v with
  | VInt _ | VFloat _ => true
  | _ => false
  end.

(** ** The heap during the search *)

(** The objects of [h0] are in the heap of [st] as they were, and the
    heap of [st] has one more object per trial. *)
Definition heap_kept (h0 : heap) (st : search_state) : Prop :=
  (forall l, is_Some (h0 !! l) -> s_heap st !! l = h0 !! l) /\
  size (s_heap st) = (size h0 + trials st)%nat.

(** ** Two runs of the loop side by side *)

(** The printed figures of two reports agree, the token count aside. *)
Definition same_figures (r r' : option report) : Prop :=
  match r, r' with
  | None, None => True
  | Some a, Some b =>
      current_loss a = current_loss b /\
      current_gnorm a = current_gnorm b /\
      current_step_time a = current_step_time b /\
      current_throughput a = current_throughput b
  | _, _ => False
  end.

(** Two states of the loop agree on everything but the token count of
    the last report. *)
Definition same_but_tokens (s s' : locals) : Prop :=
  ddp_stats s = ddp_stats s' /\ start s = start s' /\
  train_loss s = train_loss s' /\ batch_idx s = batch_idx s' /\
  same_figures (last_report s) (last_report s') /\
  clock_calls s = clock_calls s' /\
  optimizer_steps s = optimizer_steps s' /\
  reductions s = reductions s'.

(** Two outcomes agree: the same exception, or the same exit with states
    that agree. *)
Definition same_outcome (r r' : result (exit_reason * locals)) : Prop :=
  match r, r' with
  | Ok (ex, s), Ok (ex', s') => ex = ex' /\ same_but_tokens s s'
  | Raise e, Raise e' => e = e'
  | _, _ => False
  end.

(** ** More concrete runs *)

Module Extra.

(** One round of the search on the trial losses of [Scenario]. *)
Definition searched : search_state :=
  match search pow2_integral Scenario.trial_losses Scenario.explore_ratio
          Scenario.cfg Scenario.heap0 1 with
  | Ok st => st
  | Raise _ => Scenario.state2
  end.

(** The two probes of parameter 2 in round 0, from a best loss of 2. *)
Definition advanced : search_state :=
  match advance pow2_integral Scenario.trial_losses Scenario.explore_ratio
          Scenario.cfg 0 2 Scenario.state2 with
  | Ok st => st
  | Raise _ => Scenario.state2
  end.

(** What [set_mups] returns for a vector. *)
Definition derived (mup_v : list value) : heap * loc :=
  match set_mups pow2_integral Scenario.explore_ratio Scenario.cfg
          Scenario.heap0 mup_params mup_v with
  | Ok p => p
  | Raise _ => (Scenario.heap0, Scenario.cfg)
  end.

(** An exponent vector of two entries. *)
Definition short_vector : list value :=
  [ VFloat (Scenario.dec 1 2); VInt 0 ].

(** A base configuration without the attribute [mup_attn_init]. *)
Definition partial_heap : heap :=
  {[ Scenario.cfg := delete "mup_attn_init"%string Scenario.base_cfg ]}.

End Extra.

(** * Properties *)

(** ** The error monad *)

Lemma bind_ok {A B} (r : result A) (f : A -> result B) (b : B) :
  r ≫= f = Ok b -> exists a, r = Ok a /\ f a = Ok b.
Proof. destruct r as [a | e]; [eauto | discriminate]. Qed.

Lemma bind_Ok {A B} (a : A) (f : A -> result B) : Ok a ≫= f = f a.
Proof. reflexivity. Qed.

Ltac bind_inv H :=
  let a := fresh "a" in
  let Ha := fresh "Ha" in
  apply bind_ok in H as (a & Ha & H).

(** ** Multiplication by one is exact *)

Lemma shr_fexp_canonical (m : positive) (e : Z) :
  canonical_mantissa F64.prec F64.emax m e = true ->
  shr_fexp F64.prec F64.emax (Z.pos m) e loc_Exact =
  ({| shr_m := Z.pos m; shr_r := false; shr_s := false |}, e).
Proof.
  unfold canonical_mantissa, shr_fexp, Zdigits2. intros Hc%Z.eqb_eq.
  rewrite Hc, Z.sub_diag. reflexivity.
Qed.

Lemma shr_fexp_scaled (m : positive) (e : Z) :
  canonical_mantissa F64.prec F64.emax m e = true ->
  shr_fexp F64.prec F64.emax (Z.pos (m * 4503599627370496)) (e + -52)
    loc_Exact =
  ({| shr_m := Z.pos m; shr_r := false; shr_s := false |}, e).
Proof.
  unfold canonical_mantissa, shr_fexp, Zdigits2. intros Hc%Z.eqb_eq.
  rewrite !Pos.mul_xO_r, Pos.mul_1_r.
  assert (Hd : forall p, Z.pos (digits2_pos p~0) = Z.pos (digits2_pos p) + 1).
  { intros p. simpl. lia. }
  rewrite !Hd.
  replace (fexp F64.prec F64.emax _) with e
    by (rewrite <- Hc at 1; f_equal; lia).
  replace (e - (e + -52)) with 52 by lia.
  unfold shr. replace (e + -52 + 52) with e by lia.
  reflexivity.
Qed.

Lemma mul_one_r (x : spec_float) :
  F64.valid x = true -> F64.mul x F64.one = x.
Proof.
  destruct x as [s | s | | s m e]; simpl; intros Hv.
  - destruct s; reflexivity.
  - destruct s; reflexivity.
  - reflexivity.
  - unfold F64.mul, F64.one, SFmul.
    unfold F64.valid, valid_binary, bounded in Hv.
    apply andb_true_iff in Hv as [Hc Hb].
    unfold binary_round_aux.
    rewrite (shr_fexp_scaled _ _ Hc). simpl shr_m. simpl loc_of_shr_record.
    simpl round_nearest_even. rewrite (shr_fexp_canonical _ _ Hc).
    simpl shr_m. rewrite Hb. now rewrite xorb_false_r.
Qed.

(** A zero exponent times a finite ratio is a zero, in either order. *)
Lemma mul_zero_finite (s : bool) (e : spec_float) :
  is_finite e = true ->
  is_zero (F64.mul (S754_zero s) e) = true /\
  is_zero (F64.mul e (S754_zero s)) = true.
Proof. destruct e; simpl; intros H; try discriminate; auto. Qed.

(** ** The heap *)

Lemma setattr_insert (h : heap) (l : loc) (o : obj) k v :
  h !! l = Some o -> setattr h l k v = <[l := <[k := v]> o]> h.
Proof.
  intros Hl. unfold setattr. apply map_eq. intros l'.
  destruct (decide (l = l')) as [<- | Hne].
  - now rewrite lookup_alter_eq, lookup_insert_eq, Hl.
  - now rewrite lookup_alter_ne, lookup_insert_ne.
Qed.

Lemma deepcopy_spec (h : heap) (l : loc) (o : obj) :
  h !! l = Some o ->
  exists l', deepcopy h l = (<[l' := o]> h, l') /\ h !! l' = None /\ l' <> l.
Proof.
  intros Hl. exists (fresh (dom h)). unfold deepcopy. rewrite Hl. simpl.
  assert (Hf : h !! fresh (dom h) = None) by apply not_elem_of_dom, is_fresh.
  repeat split; [done |]. intros E. rewrite E, Hl in Hf. discriminate.
Qed.

(** ** [set_mups] *)

Section SetMups.
Variable libm_pow2 : spec_float -> spec_float.
Variable explore_ratio : value.
Variable cfg : loc.

(** The scaled value reads the heap at [cfg] only. *)
Lemma scaled_same_base (h1 h2 : heap) k v :
  h1 !! cfg = h2 !! cfg ->
  scaled libm_pow2 explore_ratio cfg h1 k v =
  scaled libm_pow2 explore_ratio cfg h2 k v.
Proof. intros H. unfold scaled, getattr. now rewrite H. Qed.

Lemma scaled_unfold (h : heap) (o : obj) k v x :
  h !! cfg = Some o ->
  scaled libm_pow2 explore_ratio cfg h k v = Ok x ->
  exists base e p,
    o !! k = Some base /\ py_mul v explore_ratio = Ok e /\
    py_pow2 libm_pow2 e = Ok p /\ py_mul base p = Ok x.
Proof.
  intros Hc H. unfold scaled, getattr in H. rewrite Hc in H.
  destruct (o !! k) as [base |] eqn:Hk; [| discriminate].
  simpl in H. bind_inv H. bind_inv H. eauto 10.
Qed.

Lemma scaled_fold (h : heap) (o : obj) k v base e p :
  h !! cfg = Some o -> o !! k = Some base ->
  py_mul v explore_ratio = Ok e -> py_pow2 libm_pow2 e = Ok p ->
  scaled libm_pow2 explore_ratio cfg h k v = py_mul base p.
Proof.
  intros Hc Hk He Hp. unfold scaled, getattr.
  now rewrite Hc, Hk, bind_Ok, He, bind_Ok, Hp, bind_Ok.
Qed.

(** The loop writes the scaled values into the copy and nothing else. *)
Lemma set_mups_loop_spec (new_cfg : loc) (kv : list (string * value)) :
  forall (h : heap) (on : obj),
    new_cfg <> cfg ->
    h !! new_cfg = Some on ->
    NoDup kv.*1 ->
    Forall (fun p => is_ok (scaled libm_pow2 explore_ratio cfg h p.1 p.2)
                     = true) kv ->
    exists on',
      set_mups_loop libm_pow2 explore_ratio cfg h new_cfg kv
        = Ok (<[new_cfg := on']> h) /\
      (forall k, k ∉ kv.*1 -> on' !! k = on !! k) /\
      (forall k v, (k, v) ∈ kv ->
         exists x, scaled libm_pow2 explore_ratio cfg h k v = Ok x /\
                   on' !! k = Some x).
Proof.
  induction kv as [| [k v] kv IH]; intros h on Hne Hn Hnd Hok.
  - exists on. simpl. split; [| split].
    + now rewrite insert_id.
    + done.
    + intros k v Hin. inversion Hin.
  - simpl in Hnd. apply NoDup_cons in Hnd as [Hk Hnd].
    apply Forall_cons in Hok as [Hx Hok]. simpl in Hx.
    destruct (scaled libm_pow2 explore_ratio cfg h k v) as [x |] eqn:Ex;
      [| discriminate].
    simpl. rewrite Ex. simpl.
    rewrite (setattr_insert _ _ _ _ _ Hn).
    set (h1 := <[new_cfg := <[k := x]> on]> h).
    assert (Hsame : h1 !! cfg = h !! cfg).
    { unfold h1. now rewrite lookup_insert_ne. }
    destruct (IH h1 (<[k := x]> on) Hne) as (on' & Hrun & Hframe & Hval).
    + unfold h1. now rewrite lookup_insert_eq.
    + done.
    + eapply Forall_impl; [exact Hok |]. intros [k' v'] H. simpl in *.
      now rewrite (scaled_same_base _ _ _ _ Hsame).
    + exists on'. split; [| split].
      * rewrite Hrun. unfold h1. now rewrite insert_insert_eq.
      * intros k' Hk'. apply not_elem_of_cons in Hk' as [Hkk Hk'].
        rewrite (Hframe _ Hk'). now rewrite lookup_insert_ne.
      * intros k' v' Hin. apply elem_of_cons in Hin as [E | Hin].
        -- injection E as -> ->. exists x. split; [done |].
           rewrite (Hframe _ Hk). now rewrite lookup_insert_eq.
        -- destruct (Hval _ _ Hin) as (x' & Hx' & Hl). exists x'.
           split; [| done].
           now rewrite <- (scaled_same_base _ _ _ _ Hsame).
Qed.

(** [set_mups] returns a new object; the heap it found is untouched. *)
Lemma set_mups_spec (h : heap) (o : obj) (mup_k : list string)
    (mup_v : list value) :
  h !! cfg = Some o ->
  NoDup mup_k ->
  length mup_v = length mup_k ->
  Forall (fun p => is_ok (scaled libm_pow2 explore_ratio cfg h p.1 p.2)
                   = true) (zip mup_k mup_v) ->
  exists new_cfg o',
    set_mups libm_pow2 explore_ratio cfg h mup_k mup_v
      = Ok (<[new_cfg := o']> h, new_cfg) /\
    new_cfg <> cfg /\ h !! new_cfg = None /\
    (forall k, k ∉ mup_k -> o' !! k = o !! k) /\
    (forall k v, (k, v) ∈ zip mup_k mup_v ->
       exists x, scaled libm_pow2 explore_ratio cfg h k v = Ok x /\
                 o' !! k = Some x).
Proof.
  intros Hc Hnd Hlen Hok.
  destruct (deepcopy_spec h cfg o Hc) as (l' & Hd & Hfresh & Hne).
  assert (Hsame : (<[l' := o]> h : heap) !! cfg = h !! cfg)
    by now rewrite lookup_insert_ne.
  assert (Hfst : (zip mup_k mup_v).*1 = mup_k).
  { apply fst_zip. lia. }
  destruct (set_mups_loop_spec l' (zip mup_k mup_v) (<[l' := o]> h) o)
    as (o' & Hrun & Hframe & Hval).
  - done.
  - now rewrite lookup_insert_eq.
  - now rewrite Hfst.
  - eapply Forall_impl; [exact Hok |]. intros [k v] H. simpl in *.
    now rewrite (scaled_same_base _ _ _ _ Hsame).
  - exists l', o'. unfold set_mups. rewrite Hd, Hrun. simpl.
    rewrite insert_insert_eq. repeat split; try done.
    + intros k Hk. apply Hframe. now rewrite Hfst.
    + intros k v Hin. destruct (Hval _ _ Hin) as (x & Hx & Hl).
      exists x. split; [| done].
      now rewrite <- (scaled_same_base _ _ _ _ Hsame).
Qed.

End SetMups.

(** ** The scaling rule at the zero vector *)


Lemma mup_params_NoDup : NoDup mup_params.
Proof. compute_done. Qed.

Lemma zip_zero_vector k v :
  (k, v) ∈ zip mup_params ((fun _ => VInt 0) <$> mup_params) <->
  k ∈ mup_params /\ v = VInt 0.
Proof.
  unfold mup_params. cbn [zip zip_with fmap list_fmap]. split.
  - intros Hin.
    repeat (apply elem_of_cons in Hin as [Hin | Hin];
            [injection Hin as -> ->; split; [repeat constructor | done] |]).
    inversion Hin.
  - intros [Hk ->].
    repeat (apply elem_of_cons in Hk as [-> | Hk]; [repeat constructor |]).
    inversion Hk.
Qed.

Section ZeroVector.
Variable libm_pow2 : spec_float -> spec_float.
Variable explore_ratio : value.
Variable cfg : loc.
Hypothesis ratio_finite : finite_number explore_ratio = true.

Lemma pow2_zero_exponent :
  exists p, (py_mul (VInt 0) explore_ratio ≫= py_pow2 libm_pow2) = Ok p /\
            (py_mul explore_ratio (VInt 0) ≫= py_pow2 libm_pow2) = Ok p /\
            forall f, F64.valid f = true -> py_mul (VFloat f) p = Ok (VFloat f).
Proof.
  assert (Hone : forall f, F64.valid f = true ->
            forall p, p = VInt 1 \/ p = VFloat F64.one ->
            py_mul (VFloat f) p = Ok (VFloat f)).
  { intros f Hf p [-> | ->];
      exact (f_equal (fun x => Ok (VFloat x)) (mul_one_r f Hf)). }
  destruct explore_ratio as [e | e | | |]; try discriminate.
  - exists (VInt 1). split; [| split]; [reflexivity | | auto].
    cbn. now rewrite Z.mul_0_r.
  - simpl in ratio_finite. exists (VFloat F64.one).
    destruct (mul_zero_finite false e ratio_finite) as [H1 H2].
    split; [| split]; [| | auto].
    + change (py_mul (VInt 0) (VFloat e))
        with (Ok (VFloat (F64.mul (S754_zero false) e)) : result value).
      destruct (F64.mul (S754_zero false) e); try discriminate. reflexivity.
    + change (py_mul (VFloat e) (VInt 0))
        with (Ok (VFloat (F64.mul e (S754_zero false))) : result value).
      destruct (F64.mul e (S754_zero false)); try discriminate. reflexivity.
Qed.

Lemma scaled_zero (h : heap) (o : obj) k :
  h !! cfg = Some o -> float_attr o k = true ->
  exists f, o !! k = Some (VFloat f) /\
    scaled libm_pow2 explore_ratio cfg h k (VInt 0) = Ok (VFloat f).
Proof.
  intros Hc Hk. unfold float_attr in Hk.
  destruct (o !! k) as [[| f | | |] |] eqn:Ek; try discriminate.
  exists f. split; [done |].
  destruct pow2_zero_exponent as (p & Hp & _ & Hmul).
  bind_inv Hp. rewrite (scaled_fold _ _ _ h o k _ _ _ _ Hc Ek Ha Hp).
  now apply Hmul.
Qed.

Lemma final_value_zero (h : heap) (o : obj) (i : nat) k :
  h !! cfg = Some o -> mup_params !! i = Some k -> float_attr o k = true ->
  final_value libm_pow2 explore_ratio cfg h
    ((fun _ => VInt 0) <$> mup_params) i = Ok (default VNone (o !! k)).
Proof.
  intros Hc Hi Hk. unfold float_attr in Hk.
  destruct (o !! k) as [[| f | | |] |] eqn:Ek; try discriminate.
  destruct pow2_zero_exponent as (p & _ & Hp & Hmul).
  bind_inv Hp. unfold final_value, list_get, getattr.
  rewrite Hi, bind_Ok, Hc, Ek, bind_Ok, list_lookup_fmap, Hi. cbn [fmap option_fmap option_map].
  rewrite bind_Ok, Ha, bind_Ok, Hp, bind_Ok. now apply Hmul.
Qed.

End ZeroVector.

(** C6.  Applying the scaling rule to the all-zero exponent vector gives
    back the base configuration: for a base configuration whose six muP
    attributes are floats and an [explore_ratio] that is a number (an
    [int] or a finite [float]), [set_mups] on the zero vector returns a
    new object with exactly the attributes of the base, and the final
    values computed for the zero vector are the six base values. *)
Theorem zero_vector_gives_base
    (libm_pow2 : spec_float -> spec_float) (explore_ratio : value)
    (cfg : loc) (h : heap) (o : obj) :
  h !! cfg = Some o ->
  Forall (fun k => float_attr o k = true) mup_params ->
  finite_number explore_ratio = true ->
  let zero := (fun _ => VInt 0) <$> mup_params in
  (exists new_cfg,
     set_mups libm_pow2 explore_ratio cfg h mup_params zero
       = Ok (<[new_cfg := o]> h, new_cfg) /\ new_cfg <> cfg) /\
  final libm_pow2 explore_ratio cfg h zero = Ok (base_values o).
Proof.
  intros Hc Hf Hr zero. split.
  - rewrite Forall_forall in Hf.
    destruct (set_mups_spec libm_pow2 explore_ratio cfg h o mup_params zero)
      as (new_cfg & o' & Hrun & Hne & _ & Hframe & Hval).
    + done.
    + apply mup_params_NoDup.
    + done.
    + apply Forall_forall. intros [k v] Hin. simpl.
      apply zip_zero_vector in Hin as [Hk ->].
      destruct (scaled_zero libm_pow2 explore_ratio cfg Hr h o k Hc (Hf _ Hk))
        as (f & _ & ->). done.
    + exists new_cfg. split; [| done]. rewrite Hrun. do 3 f_equal.
      apply map_eq. intros k. destruct (decide (k ∈ mup_params)) as [Hk | Hk].
      * destruct (Hval k (VInt 0)) as (x & Hx & ->).
        { now apply zip_zero_vector. }
        destruct (scaled_zero libm_pow2 explore_ratio cfg Hr h o k Hc (Hf _ Hk))
          as (f & -> & Hs). congruence.
      * now apply Hframe.
  - unfold final, base_values. unfold mup_params.
    cbn [length seq mapM fmap list_fmap]. subst zero.
    unfold mup_params in Hf.
    repeat (apply Forall_cons in Hf as [? Hf]).
    pose proof (final_value_zero libm_pow2 explore_ratio cfg Hr h o) as Hv.
    rewrite (Hv 0%nat _ Hc eq_refl), (Hv 1%nat _ Hc eq_refl),
      (Hv 2%nat _ Hc eq_refl), (Hv 3%nat _ Hc eq_refl),
      (Hv 4%nat _ Hc eq_refl), (Hv 5%nat _ Hc eq_refl) by done.
    reflexivity.
Qed.

Lemma zero_vector_gives_base_witness :
  Scenario.heap0 !! Scenario.cfg = Some Scenario.base_cfg /\
  Forall (fun k => float_attr Scenario.base_cfg k = true) mup_params /\
  finite_number Scenario.explore_ratio = true /\
  let zero := (fun _ => VInt 0) <$> mup_params in
  (exists new_cfg,
     set_mups pow2_integral Scenario.explore_ratio Scenario.cfg
       Scenario.heap0 mup_params zero
       = Ok (<[new_cfg := Scenario.base_cfg]> Scenario.heap0, new_cfg) /\
     new_cfg <> Scenario.cfg) /\
  final pow2_integral Scenario.explore_ratio Scenario.cfg Scenario.heap0 zero
    = Ok (base_values Scenario.base_cfg).
Proof.
  assert (Hc : Scenario.heap0 !! Scenario.cfg = Some Scenario.base_cfg)
    by reflexivity.
  assert (Hf : Forall (fun k => float_attr Scenario.base_cfg k = true)
                 mup_params) by (repeat constructor).
  assert (Hr : finite_number Scenario.explore_ratio = true) by reflexivity.
  split; [exact Hc |]. split; [exact Hf |]. split; [exact Hr |].
  exact (zero_vector_gives_base pow2_integral Scenario.explore_ratio
           Scenario.cfg Scenario.heap0 Scenario.base_cfg Hc Hf Hr).
Defined.

(** C7.  [set_mups] leaves the heap it is given as it is, the base
    configuration included, and returns a new object at an address that
    was free: outside the six muP attributes the new object has the
    attributes of the base, and the attribute named by [mup_params[i]] is
    [base * 2**(v*explore_ratio)] for the base value [base] and the
    exponent [v = mup_v[i]]. *)
Theorem set_mups_copies_and_scales
    (libm_pow2 : spec_float -> spec_float) (explore_ratio : value)
    (cfg : loc) (h : heap) (o : obj) (mup_v : list value) :
  h !! cfg = Some o ->
  length mup_v = length mup_params ->
  Forall (fun p => is_ok (scaled libm_pow2 explore_ratio cfg h p.1 p.2)
                   = true) (zip mup_params mup_v) ->
  exists (h' : heap) (new_cfg : loc) (o' : obj),
    set_mups libm_pow2 explore_ratio cfg h mup_params mup_v
      = Ok (h', new_cfg) /\
    new_cfg <> cfg /\ h !! new_cfg = None /\
    h' !! cfg = Some o /\
    (forall l, l <> new_cfg -> h' !! l = h !! l) /\
    h' !! new_cfg = Some o' /\
    (forall k, k ∉ mup_params -> o' !! k = o !! k) /\
    (forall i k v, mup_params !! i = Some k -> mup_v !! i = Some v ->
       exists base e p x,
         o !! k = Some base /\ py_mul v explore_ratio = Ok e /\
         py_pow2 libm_pow2 e = Ok p /\ py_mul base p = Ok x /\
         o' !! k = Some x).
Proof.
  intros Hc Hlen Hok.
  destruct (set_mups_spec libm_pow2 explore_ratio cfg h o mup_params mup_v
              Hc mup_params_NoDup Hlen Hok)
    as (new_cfg & o' & Hrun & Hne & Hfresh & Hframe & Hval).
  exists (<[new_cfg := o']> h), new_cfg, o'.
  split; [done |]. split; [done |]. split; [done |].
  split; [now rewrite lookup_insert_ne |].
  split; [intros l Hl; now rewrite lookup_insert_ne |].
  split; [now rewrite lookup_insert_eq |].
  split; [done |].
  intros i k v Hk Hv.
  destruct (Hval k v) as (x & Hx & Hl).
  { apply list_elem_of_lookup. exists i.
    rewrite lookup_zip_with, Hk. simpl. now rewrite Hv. }
  destruct (scaled_unfold _ _ _ _ _ _ _ _ Hc Hx) as (base & e & p & ?).
  exists base, e, p, x. intuition.
Qed.

Lemma set_mups_copies_and_scales_witness :
  Scenario.heap0 !! Scenario.cfg = Some Scenario.base_cfg /\
  length Scenario.some_vector = length mup_params /\
  Forall (fun p => is_ok (scaled pow2_integral Scenario.explore_ratio
                            Scenario.cfg Scenario.heap0 p.1 p.2) = true)
    (zip mup_params Scenario.some_vector) /\
  exists (h' : heap) (new_cfg : loc) (o' : obj),
    set_mups pow2_integral Scenario.explore_ratio Scenario.cfg
      Scenario.heap0 mup_params Scenario.some_vector = Ok (h', new_cfg) /\
    new_cfg <> Scenario.cfg /\ Scenario.heap0 !! new_cfg = None /\
    h' !! Scenario.cfg = Some Scenario.base_cfg /\
    (forall l, l <> new_cfg -> h' !! l = Scenario.heap0 !! l) /\
    h' !! new_cfg = Some o' /\
    (forall k, k ∉ mup_params -> o' !! k = Scenario.base_cfg !! k) /\
    (forall i k v, mup_params !! i = Some k ->
       Scenario.some_vector !! i = Some v ->
       exists base e p x,
         Scenario.base_cfg !! k = Some base /\
         py_mul v Scenario.explore_ratio = Ok e /\
         py_pow2 pow2_integral e = Ok p /\ py_mul base p = Ok x /\
         o' !! k = Some x).
Proof.
  assert (Hc : Scenario.heap0 !! Scenario.cfg = Some Scenario.base_cfg)
    by reflexivity.
  assert (Hl : length Scenario.some_vector = length mup_params)
    by reflexivity.
  assert (Hok : Forall (fun p => is_ok (scaled pow2_integral
                          Scenario.explore_ratio Scenario.cfg Scenario.heap0
                          p.1 p.2) = true)
                  (zip mup_params Scenario.some_vector))
    by (repeat constructor).
  split; [exact Hc |]. split; [exact Hl |]. split; [exact Hok |].
  exact (set_mups_copies_and_scales pow2_integral Scenario.explore_ratio
           Scenario.cfg Scenario.heap0 Scenario.base_cfg
           Scenario.some_vector Hc Hl Hok).
Defined.

(** ** The acceptance rule of the search *)

Lemma accept_unfold (st : search_state) (h : heap) (candidate : list value)
    (new_loss : value) (better : bool) :
  py_lt new_loss (best_loss st) = Ok better ->
  accept st h candidate new_loss =
  Ok {| s_heap := h;
        mup_scale_vals := if better then candidate else mup_scale_vals st;
        best_loss := best_loss st;
        trials := S (trials st) |}.
Proof. intros H. unfold accept. now rewrite H. Qed.

(** No path through the acceptance test assigns [best_loss]. *)
Lemma accept_best_loss (st st' : search_state) (h : heap)
    (candidate : list value) (new_loss : value) :
  accept st h candidate new_loss = Ok st' ->
  best_loss st' = best_loss st /\ trials st' = S (trials st).
Proof.
  unfold accept. intros H. bind_inv H. injection H as <-. done.
Qed.

Section SearchFacts.
Variable libm_pow2 : spec_float -> spec_float.
Variable run : nat -> obj -> result value.
Variable explore_ratio : value.
Variable cfg : loc.

Lemma probe_unfold i j start_val sign (st st' : search_state) :
  probe libm_pow2 run explore_ratio cfg i j start_val sign st = Ok st' ->
  exists (candidate : list value) (h : heap) (new_cfg : loc)
         (new_loss : value),
    set_mups libm_pow2 explore_ratio cfg (s_heap st) mup_params candidate
      = Ok (h, new_cfg) /\
    run (trials st) (default ∅ (h !! new_cfg)) = Ok new_loss /\
    accept st h candidate new_loss = Ok st'.
Proof.
  unfold probe. intros H.
  do 5 bind_inv H. destruct a3 as [h new_cfg]. bind_inv H.
  eauto 10.
Qed.

Lemma probe_best_loss i j start_val sign (st st' : search_state) :
  probe libm_pow2 run explore_ratio cfg i j start_val sign st = Ok st' ->
  best_loss st' = best_loss st.
Proof.
  intros H. apply probe_unfold in H as (c & h & n & l & _ & _ & H).
  now apply accept_best_loss in H.
Qed.

Lemma foldM_invariant {A B} (f : B -> A -> result A) (P : A -> Prop)
    (l : list B) :
  (forall b a a', P a -> f b a = Ok a' -> P a') ->
  forall a a', P a -> foldM f l a = Ok a' -> P a'.
Proof.
  intros Hstep. induction l as [| b l IH]; simpl; intros a a' Ha H.
  - now injection H as <-.
  - bind_inv H. eauto.
Qed.

Lemma advance_best_loss i j (st st' : search_state) :
  advance libm_pow2 run explore_ratio cfg i j st = Ok st' ->
  best_loss st' = best_loss st.
Proof.
  unfold advance. intros H. do 2 bind_inv H.
  apply probe_best_loss in H, Ha0. congruence.
Qed.

(** The best loss at the end of the search is the loss of the baseline
    trial, whatever the trials after it returned. *)
Lemma search_best_loss (h : heap) (n : Z) (st : search_state) :
  search libm_pow2 run explore_ratio cfg h n = Ok st ->
  exists o, run 0%nat o = Ok (best_loss st).
Proof.
  unfold search. intros H. bind_inv H.
  assert (Hb : exists o, run 0%nat o = Ok (best_loss a)).
  { unfold baseline in Ha. bind_inv Ha. destruct a0 as [h1 new_cfg].
    bind_inv Ha. injection Ha as <-. simpl. eauto. }
  set (P := fun s : search_state => exists o, run 0%nat o = Ok (best_loss s)).
  apply (foldM_invariant _ P _) with (a := a) (a' := st) in H; [done | | done].
  intros i s s' Hs Hr. unfold round in Hr.
  apply (foldM_invariant _ P _) with (a := s) (a' := s') in Hr; [done | | done].
  intros j t t' Ht Hadv. apply advance_best_loss in Hadv.
  unfold P. now rewrite Hadv.
Qed.

End SearchFacts.

(** C1.  The scenario of the specification, continued by one probe:
    baseline 2.00; round 0, parameter 2, the negative probe returns 1.80
    and is adopted, the positive probe returns 2.10; then the negative
    probe of parameter 3 returns 1.90.  The source adopts the candidate
    vector but never assigns [best_loss]: the search ends the round with
    the best loss still 2.00, and with the 1.90 candidate adopted over the
    1.80 one. *)
Theorem best_loss_not_updated_in_scenario :
  (st ← search pow2_integral Scenario.trial_losses Scenario.explore_ratio
         Scenario.cfg Scenario.heap0 1;
   Ok (mup_scale_vals st, best_loss st, trials st))
  = Ok ([ VInt 0; VInt 0; VFloat (Scenario.dec (-1) 2);
          VFloat (Scenario.dec (-1) 2); VInt 0; VInt 0 ],
        VFloat (Scenario.dec 200 100), 13%nat).
Proof. vm_compute. reflexivity. Qed.

(** C5, as stated, fails: the best loss 150 is finite, and the candidate
    whose trial returned the sentinel 100 is adopted. *)
Lemma sentinel_accepted_over_finite_loss :
  finite_number (best_loss Scenario.state150) = true /\
  (st ← probe pow2_integral Scenario.sentinel_trials Scenario.explore_ratio
         Scenario.cfg 0 0 (VInt 0) (-1) Scenario.state150;
   Ok (mup_scale_vals st, best_loss st))
  = Ok ([ VFloat (Scenario.dec (-1) 2); VInt 0; VInt 0; VInt 0; VInt 0;
          VInt 0 ], VFloat (F64.of_Z 150)) /\
  mup_scale_vals Scenario.state150
  <> [ VFloat (Scenario.dec (-1) 2); VInt 0; VInt 0; VInt 0; VInt 0;
       VInt 0 ].
Proof. split; [reflexivity |]. split; [vm_compute; reflexivity | discriminate]. Qed.

Lemma sentinel_not_below (b : value) :
  py_le b (VInt 100) = Ok true -> py_lt (VInt 100) b = Ok false.
Proof.
  unfold py_le, py_lt. destruct b as [y | f | | |]; try discriminate.
  - unfold py_compare. rewrite !bind_Ok, (Z.compare_antisym y 100).
    destruct (y ?= 100); simpl; congruence.
  - unfold py_compare. rewrite !bind_Ok. destruct (Zcompare_float 100 f) as [[| |] |]; simpl; congruence.
Qed.

(** C5, amended.  When the current best loss is at most 100, a candidate
    whose trial returned the sentinel 100 is not adopted: the acceptance
    test returns normally, with the exponent vector and the best loss as
    they were and the trial counted, and so does the probe around it. *)
Theorem sentinel_rejected_up_to_100
    (libm_pow2 : spec_float -> spec_float)
    (run : nat -> obj -> result value) (explore_ratio : value) (cfg : loc)
    (st : search_state) :
  py_le (best_loss st) (VInt 100) = Ok true ->
  (forall o, run (trials st) o = Ok (VInt 100)) ->
  (forall (h : heap) (candidate : list value),
     accept st h candidate (VInt 100) =
     Ok {| s_heap := h; mup_scale_vals := mup_scale_vals st;
           best_loss := best_loss st; trials := S (trials st) |}) /\
  (forall i j start_val sign st',
     probe libm_pow2 run explore_ratio cfg i j start_val sign st = Ok st' ->
     mup_scale_vals st' = mup_scale_vals st /\
     best_loss st' = best_loss st /\ trials st' = S (trials st)).
Proof.
  intros Hle Hrun.
  assert (Hacc : forall h candidate,
            accept st h candidate (VInt 100) =
            Ok {| s_heap := h; mup_scale_vals := mup_scale_vals st;
                  best_loss := best_loss st; trials := S (trials st) |}).
  { intros h c. now rewrite (accept_unfold st h c _ false (sentinel_not_below _ Hle)). }
  split; [exact Hacc |].
  intros i j sv sign st' H.
  apply probe_unfold in H as (c & h & n & l & _ & Hl & H).
  rewrite Hrun in Hl. injection Hl as <-.
  rewrite Hacc in H. injection H as <-. done.
Qed.

Lemma sentinel_rejected_up_to_100_witness :
  py_le (best_loss Scenario.state2) (VInt 100) = Ok true /\
  (forall o, Scenario.sentinel_trials (trials Scenario.state2) o
             = Ok (VInt 100)) /\
  (forall (h : heap) (candidate : list value),
     accept Scenario.state2 h candidate (VInt 100) =
     Ok {| s_heap := h; mup_scale_vals := mup_scale_vals Scenario.state2;
           best_loss := best_loss Scenario.state2;
           trials := S (trials Scenario.state2) |}) /\
  (forall i j start_val sign st',
     probe pow2_integral Scenario.sentinel_trials Scenario.explore_ratio
       Scenario.cfg i j start_val sign Scenario.state2 = Ok st' ->
     mup_scale_vals st' = mup_scale_vals Scenario.state2 /\
     best_loss st' = best_loss Scenario.state2 /\
     trials st' = S (trials Scenario.state2)).
Proof.
  assert (Hle : py_le (best_loss Scenario.state2) (VInt 100) = Ok true)
    by reflexivity.
  assert (Hrun : forall o, Scenario.sentinel_trials (trials Scenario.state2) o
                           = Ok (VInt 100)) by reflexivity.
  split; [exact Hle |]. split; [exact Hrun |].
  exact (sentinel_rejected_up_to_100 pow2_integral Scenario.sentinel_trials
           Scenario.explore_ratio Scenario.cfg Scenario.state2 Hle Hrun).
Defined.

(** ** Counting in binary32

    The count slot of [ddp_stats] is a float32 that starts at 0 and grows
    by 1.0 per step: it holds the number of steps exactly up to 2^24 and
    stays there. *)

Lemma iter_pos_iter {A} (f : A -> A) (n : positive) (x : A) :
  SpecFloat.iter_pos f n x = Pos.iter f x n.
Proof.
  revert x. induction n as [n IH | n IH |]; intros x; simpl.
  - rewrite !IH, !Pos.iter_swap. reflexivity.
  - rewrite !IH. reflexivity.
  - reflexivity.
Qed.

Lemma shr_shifted (m n : positive) (e : Z) :
  shr {| shr_m := Z.pos (Pos.iter xO m n); shr_r := false; shr_s := false |}
    e (Z.pos n) =
  ({| shr_m := Z.pos m; shr_r := false; shr_s := false |}, e + Z.pos n).
Proof.
  unfold shr. f_equal. rewrite iter_pos_iter.
  induction n as [| n IH] using Pos.peano_ind.
  - reflexivity.
  - rewrite (Pos.iter_succ n positive xO), (Pos.iter_succ_r n _ shr_1).
    exact IH.
Qed.

Lemma digits2_shifted (m n : positive) :
  Z.pos (digits2_pos (Pos.iter xO m n)) = Z.pos (digits2_pos m) + Z.pos n.
Proof.
  induction n as [| n IH] using Pos.peano_ind.
  - simpl. rewrite Pos2Z.inj_succ. lia.
  - rewrite Pos.iter_succ. simpl digits2_pos. rewrite Pos2Z.inj_succ. lia.
Qed.

Lemma digits2_shiftl (m : positive) (k : Z) :
  0 <= k ->
  Z.pos (digits2_pos (Pos.shiftl m (Z.to_N k))) = Z.pos (digits2_pos m) + k.
Proof.
  destruct k as [| n | n]; intros Hk; [| | lia].
  - change (Pos.shiftl m (Z.to_N 0)) with m. lia.
  - change (Pos.shiftl m (Z.to_N (Z.pos n))) with (Pos.iter xO m n).
    apply digits2_shifted.
Qed.

Lemma shiftl_Z (m : positive) (k : Z) :
  0 <= k -> Z.pos (Pos.shiftl m (Z.to_N k)) = Z.pos m * 2 ^ k.
Proof.
  destruct k as [| n | n]; intros Hk; [| | lia].
  - change (Pos.shiftl m (Z.to_N 0)) with m. lia.
  - change (Pos.shiftl m (Z.to_N (Z.pos n))) with (shift_pos n m).
    rewrite <- Z.pow_pos_fold, Z.mul_comm. apply shift_pos_correct.
Qed.

Lemma digits2_bounds (p : positive) :
  2 ^ (Z.pos (digits2_pos p) - 1) <= Z.pos p < 2 ^ Z.pos (digits2_pos p).
Proof.
  induction p as [p IH | p IH |]; simpl digits2_pos.
  - rewrite Pos2Z.inj_succ, Z.pow_succ_r by lia.
    replace (Z.succ (Z.pos (digits2_pos p)) - 1) with
      (Z.succ (Z.pos (digits2_pos p) - 1)) by lia.
    rewrite Z.pow_succ_r by lia. lia.
  - rewrite Pos2Z.inj_succ, Z.pow_succ_r by lia.
    replace (Z.succ (Z.pos (digits2_pos p)) - 1) with
      (Z.succ (Z.pos (digits2_pos p) - 1)) by lia.
    rewrite Z.pow_succ_r by lia. lia.
  - simpl. lia.
Qed.

Section ExactRounding.
Variables prec emax : Z.

(** A mantissa that is a canonical one shifted left rounds to it. *)
Lemma binary_round_aux_shiftl (s : bool) (m : positive) (e k : Z) :
  0 <= k ->
  canonical_mantissa prec emax m e = true ->
  e <= emax - prec ->
  binary_round_aux prec emax s (Z.pos (Pos.shiftl m (Z.to_N k))) (e - k)
    loc_Exact = S754_finite s m e.
Proof.
  intros Hk Hc He. unfold canonical_mantissa in Hc. apply Z.eqb_eq in Hc.
  assert (Hcan : shr_fexp prec emax (Z.pos m) e loc_Exact =
            ({| shr_m := Z.pos m; shr_r := false; shr_s := false |}, e)).
  { unfold shr_fexp, Zdigits2. rewrite Hc, Z.sub_diag. reflexivity. }
  assert (H1 : shr_fexp prec emax (Z.pos (Pos.shiftl m (Z.to_N k))) (e - k)
            loc_Exact =
            ({| shr_m := Z.pos m; shr_r := false; shr_s := false |}, e)).
  { unfold shr_fexp, Zdigits2. rewrite digits2_shiftl by exact Hk.
    replace (Z.pos (digits2_pos m) + k + (e - k)) with
      (Z.pos (digits2_pos m) + e) by lia.
    rewrite Hc. replace (e - (e - k)) with k by lia.
    destruct k as [| n | n]; try lia.
    - change (Pos.shiftl m (Z.to_N 0)) with m. simpl. now rewrite Z.sub_0_r.
    - change (Pos.shiftl m (Z.to_N (Z.pos n))) with (Pos.iter xO m n).
      simpl shr_record_of_loc. rewrite shr_shifted. f_equal. lia. }
  unfold binary_round_aux. rewrite H1. simpl shr_m.
  simpl loc_of_shr_record. simpl round_nearest_even. rewrite Hcan.
  simpl shr_m. apply Z.leb_le in He. now rewrite He.
Qed.

Lemma binary_round_shiftl (s : bool) (m : positive) (e k : Z) :
  0 <= k ->
  canonical_mantissa prec emax m e = true ->
  e <= emax - prec ->
  binary_round prec emax s (Pos.shiftl m (Z.to_N k)) (e - k) =
  S754_finite s m e.
Proof.
  intros Hk Hc He. unfold binary_round.
  rewrite digits2_shiftl by exact Hk.
  replace (Z.pos (digits2_pos m) + k + (e - k)) with
    (Z.pos (digits2_pos m) + e) by lia.
  pose proof Hc as Hc'. unfold canonical_mantissa in Hc'.
  apply Z.eqb_eq in Hc'. rewrite Hc'.
  unfold shl_align. replace (e - (e - k)) with k by lia.
  destruct k as [| n | n]; try lia.
  - now apply binary_round_aux_shiftl.
  - now apply binary_round_aux_shiftl.
Qed.

(** A mantissa whose left shift is canonical rounds to the shift. *)
Lemma binary_round_shl (s : bool) (m : positive) (e k : Z) :
  0 <= k ->
  canonical_mantissa prec emax (Pos.shiftl m (Z.to_N k)) (e - k) = true ->
  e - k <= emax - prec ->
  binary_round prec emax s m e =
  S754_finite s (Pos.shiftl m (Z.to_N k)) (e - k).
Proof.
  intros Hk Hc He. unfold binary_round.
  pose proof Hc as Hc'. unfold canonical_mantissa in Hc'.
  apply Z.eqb_eq in Hc'. rewrite digits2_shiftl in Hc' by exact Hk.
  replace (Z.pos (digits2_pos m) + k + (e - k)) with
    (Z.pos (digits2_pos m) + e) in Hc' by lia.
  rewrite Hc'. unfold shl_align. replace (e - k - e) with (- k) by lia.
  pose proof (binary_round_aux_shiftl s _ _ 0 (Z.le_refl 0) Hc He) as H.
  change (Pos.shiftl ?x (Z.to_N 0)) with x in H. rewrite Z.sub_0_r in H.
  destruct k as [| n | n]; [| | lia].
  - change (Pos.shiftl m (Z.to_N 0)) with m in *. rewrite Z.sub_0_r in *.
    exact H.
  - exact H.
Qed.

End ExactRounding.

(** The binary32 of a whole number below 2^24 is the number itself: its
    mantissa filled up to 24 digits. *)
Lemma of_Z_small (p : positive) :
  Z.pos p < 16777216 ->
  (1 <= Z.pos (digits2_pos p) <= 24) /\
  F32.of_Z (Z.pos p) =
  S754_finite false (Pos.shiftl p (Z.to_N (24 - Z.pos (digits2_pos p))))
    (Z.pos (digits2_pos p) - 24).
Proof.
  intros Hp. pose proof (digits2_bounds p) as [Hlo _].
  assert (Hd : 1 <= Z.pos (digits2_pos p) <= 24).
  { split; [lia |].
    assert (Z.pos (digits2_pos p) - 1 < 24); [| lia].
    apply (Z.pow_lt_mono_r_iff 2); [lia | lia |].
    change (2 ^ 24) with 16777216. lia. }
  split; [exact Hd |].
  unfold F32.of_Z, binary_normalize.
  replace (Z.pos (digits2_pos p) - 24) with
    (0 - (24 - Z.pos (digits2_pos p))) by lia.
  apply binary_round_shl; [lia | | unfold F32.emax, F32.prec; lia].
  unfold canonical_mantissa. apply Z.eqb_eq.
  rewrite digits2_shiftl by lia.
  unfold fexp, emin, F32.prec, F32.emax. lia.
Qed.

(** A whole number up to 2^24 scaled by 2^23 rounds to its binary32. *)
Lemma binary_round_scaled (q : positive) :
  Z.pos q <= 16777216 ->
  binary_round F32.prec F32.emax false (Pos.shiftl q 23) (-23) =
  F32.of_Z (Z.pos q).
Proof.
  intros Hq. destruct (Z.eq_dec (Z.pos q) 16777216) as [He | Hne].
  - injection He as ->. vm_compute. reflexivity.
  - destruct (of_Z_small q) as [Hd ->]; [lia |].
    set (d := Z.pos (digits2_pos q)) in *.
    replace (Pos.shiftl q 23) with
      (Pos.shiftl (Pos.shiftl q (Z.to_N (24 - d))) (Z.to_N (d - 1))).
    2:{ apply Pos2Z.inj. change 23%N with (Z.to_N 23).
        rewrite !shiftl_Z by lia. rewrite <- Z.mul_assoc, <- Z.pow_add_r by lia.
        do 2 f_equal. lia. }
    replace (-23) with (d - 24 - (d - 1)) by lia.
    apply binary_round_shiftl; [lia | | unfold F32.emax, F32.prec; lia].
    unfold canonical_mantissa. apply Z.eqb_eq.
    rewrite digits2_shiftl by lia.
    unfold fexp, emin, F32.prec, F32.emax. lia.
Qed.

(** Counting in binary32 is exact up to 2^24. *)
Lemma count_succ (n : Z) :
  0 <= n < 16777216 ->
  F32.add (F32.of_Z n) F32.one = F32.of_Z (n + 1).
Proof.
  intros Hn. destruct n as [| p | p]; [reflexivity | | lia].
  destruct (of_Z_small p) as [Hd ->]; [lia |].
  set (d := Z.pos (digits2_pos p)) in *.
  unfold F32.add, F32.one, SFadd.
  replace (Z.min (d - 24) (-23)) with (-23) by lia.
  assert (Hx : (shl_align (Pos.shiftl p (Z.to_N (24 - d))) (d - 24) (-23)).1
               = Pos.shiftl p 23).
  { unfold shl_align. destruct (-23 - (d - 24)) as [| j | j] eqn:Hj;
      [| lia |]; simpl fst.
    - f_equal. replace (24 - d) with 23 by lia. reflexivity.
    - apply Pos2Z.inj.
      change (Pos.iter xO ?x j) with (Pos.shiftl x (Z.to_N (Z.pos j))).
      change 23%N with (Z.to_N 23). rewrite !shiftl_Z by lia.
      rewrite <- Z.mul_assoc, <- Z.pow_add_r by lia. do 2 f_equal. lia. }
  rewrite Hx. simpl cond_Zopp.
  change ((shl_align 8388608 (-23) (-23)).1) with 8388608%positive.
  replace (Z.pos (Pos.shiftl p 23) + 8388608) with
    (Z.pos (Pos.shiftl (p + 1) 23)).
  2:{ change 23%N with (Z.to_N 23). rewrite !shiftl_Z by lia.
      change (2 ^ 23) with 8388608. lia. }
  unfold binary_normalize.
  rewrite binary_round_scaled by lia.
  f_equal.
Qed.

(** Beyond 2^24 the count stops. *)
Example count_stops :
  F32.add (F32.of_Z 16777216) F32.one = F32.of_Z 16777216.
Proof. reflexivity. Qed.

Lemma count_step (c : Z) :
  0 <= c ->
  F32.add (F32.of_Z (Z.min 16777216 c)) F32.one =
  F32.of_Z (Z.min 16777216 (c + 1)).
Proof.
  intros Hc. destruct (Z_lt_le_dec c 16777216) as [Hlt | Hge].
  - rewrite !Z.min_r by lia. apply count_succ. lia.
  - rewrite !Z.min_l by lia. reflexivity.
Qed.

(** ** The training loop *)

(** The condition of the guard, spelled out: 6.0 is the float32
    [12582912 * 2^-21]. *)
Lemma guard_spec (k : Z) (l : spec_float) :
  guard k l = true <->
  999 < k /\
  (l = S754_nan \/ SFltb (S754_finite false 12582912 (-21)) l = true).
Proof.
  unfold guard, bad_loss. rewrite andb_true_iff, orb_true_iff, Z.gtb_lt.
  change F32.six with (S754_finite false 12582912 (-21)).
  assert (is_nan l = true <-> l = S754_nan)
    by (destruct l; simpl; split; congruence).
  tauto.
Qed.

Section TrainFacts.
Variable cfg : train_cfg.
Variable rank world_size start_step tokens_seen : Z.
Variable clock : nat -> spec_float.
Variable peers : Z -> list stats.

Local Abbreviation report_block' :=
  (report_block cfg world_size start_step tokens_seen clock peers).
Local Abbreviation train_loop' :=
  (train_loop cfg world_size start_step tokens_seen clock peers).

(** What a reporting boundary that returns has done. *)
Lemma report_block_spec (k : Z) (st st' : locals) (loss : spec_float) :
  report_block' k st = Ok (loss, st') ->
  let reduced := all_reduce peers k (ddp_stats st) in
  loss = mean_loss reduced /\
  ddp_stats st' = stats_zero /\
  train_loss st' = VTensor loss /\
  batch_idx st' = batch_idx st /\
  optimizer_steps st' = optimizer_steps st /\
  reductions st' =
    {| red_step := k; red_local := ddp_stats st; red_sum := reduced |}
    :: reductions st /\
  exists rep step_time interval,
    last_report st' = Some rep /\
    float_of_int (report_interval cfg) = Ok interval /\
    float_div (F64.sub (clock (S (clock_calls st))) (start st)) interval
      = Ok step_time /\
    current_step_time rep = step_time /\
    throughput cfg step_time = Ok (current_throughput rep).
Proof.
  unfold report_block. intros H. do 3 bind_inv H.
  injection H as -> <-. simpl. repeat split. eauto 10.
Qed.

(** The proof rule of the loop: an invariant [I] of the states before an
    iteration, and what holds of the state the loop ends with. *)
Lemma train_loop_rule (I : Z -> locals -> Prop)
    (Q : exit_reason -> locals -> Prop) :
  (forall idx st, I idx st -> Q Exhausted st) ->
  (forall idx st, I idx st -> idx > num_steps cfg ->
     Q BudgetReached (bind_batch_idx idx st)) ->
  (forall idx st b, I idx st -> idx <= num_steps cfg ->
     report_interval cfg <> 0 -> idx mod report_interval cfg <> 0 ->
     I (idx + 1) (train_step b (bind_batch_idx idx st))) ->
  (forall idx st b loss st', I idx st -> idx <= num_steps cfg ->
     report_interval cfg <> 0 -> idx mod report_interval cfg = 0 ->
     report_block' idx (train_step b (bind_batch_idx idx st))
       = Ok (loss, st') ->
     if guard idx loss then Q Diverged st' else I (idx + 1) st') ->
  forall batches idx st ex st',
    I idx st -> train_loop' batches idx st = Ok (ex, st') -> Q ex st'.
Proof.
  intros Hend Hbudget Hstep Hreport.
  induction batches as [| b rest IH]; intros idx st ex st' Hi H.
  - injection H as <- <-. eauto.
  - cbn [train_loop] in H.
    destruct (idx >? num_steps cfg) eqn:Eb.
    { injection H as <- <-. apply Hbudget; [done | lia]. }
    unfold int_mod in H.
    destruct (report_interval cfg =? 0) eqn:Ez; [discriminate |].
    rewrite bind_Ok in H.
    assert (Hle : idx <= num_steps cfg) by lia.
    assert (Hnz : report_interval cfg <> 0) by lia.
    destruct (idx mod report_interval cfg =? 0) eqn:Em.
    + bind_inv H. destruct a as [loss st1].
      specialize (Hreport idx st b loss st1 Hi Hle Hnz ltac:(lia) Ha).
      destruct (guard idx loss).
      * injection H as <- <-. exact Hreport.
      * exact (IH _ _ _ _ Hreport H).
    + eapply IH; [| exact H]. apply Hstep; try done. lia.
Qed.

(** The boundary steps among the first [n] steps of a run. *)
Lemma boundary_steps_succ (n : Z) :
  0 <= n ->
  boundary_steps (report_interval cfg) start_step (n + 1) =
  boundary_steps (report_interval cfg) start_step n ++
  (if decide ((start_step + 1 + n) mod report_interval cfg = 0)
   then [start_step + 1 + n] else []).
Proof.
  intros Hn. unfold boundary_steps.
  rewrite seqZ_app by lia. rewrite filter_app. f_equal.
Qed.

(** The guard of a run that returns: it held at the last reduction when
    the loop left through it, and at no reduction otherwise. *)
Lemma train_loop_divergence (batches : list batch)
    (ex : exit_reason) (st : locals) :
  train_loop' batches (start_step + 1) (init_locals clock) = Ok (ex, st) ->
  Forall (fun r => red_sum r = all_reduce peers (red_step r) (red_local r))
    (reductions st) /\
  red_step <$> reductions st =
    reverse (boundary_steps (report_interval cfg) start_step
               (optimizer_steps st)) /\
  match ex with
  | Diverged =>
      exists r earlier,
        reductions st = r :: earlier /\
        guard (red_step r) (mean_loss (red_sum r)) = true /\
        Forall (fun r' => guard (red_step r') (mean_loss (red_sum r')) = false)
          earlier /\
        batch_idx st = Some (red_step r) /\
        optimizer_steps st = red_step r - start_step /\
        train_loss st = VTensor (mean_loss (red_sum r))
  | _ =>
      Forall (fun r => guard (red_step r) (mean_loss (red_sum r)) = false)
        (reductions st)
  end.
Proof.
  set (consistent := fun r : reduction =>
         red_sum r = all_reduce peers (red_step r) (red_local r)).
  set (quiet := fun r : reduction =>
         guard (red_step r) (mean_loss (red_sum r)) = false).
  set (I := fun (idx : Z) (s : locals) =>
         start_step < idx /\
         optimizer_steps s = idx - 1 - start_step /\
         Forall consistent (reductions s) /\
         Forall quiet (reductions s) /\
         red_step <$> reductions s =
           reverse (boundary_steps (report_interval cfg) start_step
                      (idx - 1 - start_step))).
  intros H. pattern ex, st.
  match goal with
  | |- ?Q ex st =>
      refine (train_loop_rule I Q _ _ _ _ batches _ _ ex st _ H)
  end; clear batches ex st H; cbv beta.
  - intros idx st (Hlt & Hopt & Hc & Hq & Hlog).
    rewrite Hopt. done.
  - intros idx st (Hlt & Hopt & Hc & Hq & Hlog) _. simpl.
    rewrite Hopt. done.
  - intros idx st b (Hlt & Hopt & Hc & Hq & Hlog) _ Hnz Hmod.
    unfold I. simpl. repeat split; try done; try lia.
    replace (idx + 1 - 1 - start_step) with (idx - 1 - start_step + 1) by lia.
    rewrite boundary_steps_succ by lia.
    replace (start_step + 1 + (idx - 1 - start_step)) with idx by lia.
    rewrite decide_False by done. now rewrite app_nil_r.
  - intros idx st b loss st' (Hlt & Hopt & Hc & Hq & Hlog) _ Hnz Hmod Hrep.
    apply report_block_spec in Hrep
      as (-> & Hz & Htl & Hbi & Hos & Hred & _).
    simpl in Hbi, Hos, Hred.
    set (r := {| red_step := idx; red_local := _; red_sum := _ |}) in Hred.
    assert (Hlog' : red_step <$> reductions st' =
              reverse (boundary_steps (report_interval cfg) start_step
                         (idx - start_step))).
    { rewrite Hred. cbn [fmap list_fmap]. simpl red_step.
      replace (idx - start_step) with (idx - 1 - start_step + 1) by lia.
      rewrite boundary_steps_succ by lia.
      replace (start_step + 1 + (idx - 1 - start_step)) with idx by lia.
      rewrite decide_True by done.
      rewrite reverse_app. simpl. now f_equal. }
    assert (Hc' : Forall consistent (reductions st')).
    { rewrite Hred. constructor; [reflexivity | done]. }
    destruct (guard idx _) eqn:Eg.
    + split; [done |]. split; [rewrite Hos, Hopt, Hlog'; do 2 f_equal; lia |].
      exists r, (reductions st). repeat split; try done. 
      rewrite Hos, Hopt. simpl. lia.
    + unfold I. rewrite Hos, Hopt, Hred.
      replace (idx + 1 - 1 - start_step) with (idx - start_step) by lia.
      repeat split; try done; try lia.
      * now rewrite <- Hred.
      * constructor; done.
      * now rewrite <- Hred.
  - unfold I, init_locals. simpl. repeat split; try done; try lia.
    replace (start_step + 1 - 1 - start_step) with 0 by lia. reflexivity.
Qed.

(** C3.  A run of the loop that returns has passed every boundary step
    among the steps it executed, and the log of reductions lists them.
    The reduced mean loss of a reduction is the float32 quotient of the
    summed loss by the summed count.  The loop leaves through the
    divergence guard exactly when a logged reduction diverges: its step is
    above 999 and its reduced mean loss is not-a-number or above 6.0.  That
    reduction is then the last one, no reduction before it diverged, the
    loop variable is its step, and the optimizer has stepped once per step
    up to it and not after. *)
Theorem guard_fires_at_first_divergence (batches : list batch)
    (ex : exit_reason) (st : locals) :
  train_loop' batches (start_step + 1) (init_locals clock) = Ok (ex, st) ->
  let mean := fun r : reduction =>
    SFdiv 24 128 (loss_sum (red_sum r)) (steps (red_sum r)) in
  let diverged := fun r : reduction =>
    999 < red_step r /\
    (mean r = S754_nan \/
     SFltb (S754_finite false 12582912 (-21)) (mean r) = true) in
  Forall (fun r => red_sum r = all_reduce peers (red_step r) (red_local r))
    (reductions st) /\
  red_step <$> reductions st =
    reverse (boundary_steps (report_interval cfg) start_step
               (optimizer_steps st)) /\
  match ex with
  | Diverged =>
      exists r earlier,
        reductions st = r :: earlier /\
        diverged r /\
        Forall (fun r' => ~ diverged r') earlier /\
        batch_idx st = Some (red_step r) /\
        optimizer_steps st = red_step r - start_step /\
        train_loss st = VTensor (mean r)
  | _ => Forall (fun r => ~ diverged r) (reductions st)
  end.
Proof.
  intros H mean diverged.
  destruct (train_loop_divergence _ _ _ H) as (Hc & Hlog & Hex).
  split; [exact Hc |]. split; [exact Hlog |].
  assert (Hq : forall l : list reduction,
            Forall (fun r => guard (red_step r) (mean_loss (red_sum r))
                             = false) l ->
            Forall (fun r => ~ diverged r) l).
  { intros l Hl. eapply Forall_impl; [exact Hl |]. intros r Hg Hd.
    apply (proj2 (guard_spec _ _)) in Hd.
    change (guard (red_step r) (mean_loss (red_sum r)) = true) in Hd.
    congruence. }
  destruct ex; [now apply Hq | now apply Hq |].
  destruct Hex as (r & earlier & Hr & Hg & He & Hb & Ho & Hl).
  exists r, earlier. apply guard_spec in Hg. auto 10.
Qed.

Local Abbreviation train' :=
  (train cfg rank world_size start_step tokens_seen clock peers).

(** At the end of the loop the loss variable is the integer it was
    initialised with until a reduction has happened, and the tensor of
    the latest reduction after that; the variables of the summary are
    bound from the first reduction on. *)
Lemma train_loop_loss_variable (batches : list batch) (ex : exit_reason)
    (st : locals) :
  train_loop' batches (start_step + 1) (init_locals clock) = Ok (ex, st) ->
  match reductions st with
  | [] => train_loss st = VInt (-1) /\ last_report st = None /\
          ex <> Diverged
  | r :: _ =>
      train_loss st = VTensor (mean_loss (red_sum r)) /\
      is_Some (batch_idx st) /\ is_Some (last_report st) /\
      (ex = Diverged -> bad_loss (mean_loss (red_sum r)) = true)
  end.
Proof.
  set (I := fun (idx : Z) (s : locals) =>
         match reductions s with
         | [] => train_loss s = VInt (-1) /\ last_report s = None
         | r :: _ =>
             train_loss s = VTensor (mean_loss (red_sum r)) /\
             is_Some (batch_idx s) /\ is_Some (last_report s)
         end).
  intros H. pattern ex, st.
  match goal with
  | |- ?Q ex st =>
      refine (train_loop_rule I Q _ _ _ _ batches _ _ ex st _ H)
  end; clear batches ex st H; cbv beta.
  - intros idx st Hi. unfold I in Hi.
    destruct (reductions st) as [| r l]; [now destruct Hi |].
    destruct Hi as (Hl & Hb & Hr). done.
  - intros idx st Hi _. unfold I in Hi. simpl.
    destruct (reductions st) as [| r l]; [now destruct Hi |].
    destruct Hi as (Hl & Hb & Hr). done.
  - intros idx st b Hi _ _ _. unfold I in *. simpl.
    destruct (reductions st) as [| r l]; [done |].
    destruct Hi as (Hl & Hb & Hr). done.
  - intros idx st b loss st' _ _ _ _ Hrep.
    apply report_block_spec in Hrep
      as (-> & _ & Htl & Hbi & _ & Hred & rep & ? & ? & Hlr & _).
    simpl in Hbi.
    destruct (guard idx _) eqn:Eg.
    + rewrite Hred. simpl. rewrite Hbi, Hlr. repeat split; try done.
      intros _. unfold guard in Eg. now apply andb_true_iff in Eg as [_ ?].
    + unfold I. rewrite Hred. simpl. now rewrite Hbi, Hlr.
  - unfold I. simpl. done.
Qed.

(** C2, amended.  When the loop has left through the divergence guard,
    the loss variable is a tensor whose value is not-a-number or above 6,
    and [train] returns the sentinel 100 when it is not-a-number and the
    value itself, as a float, otherwise. *)
Theorem diverged_run_returns_sentinel_only_for_nan (batches : list batch)
    (st : locals) :
  train_loop' batches (start_step + 1) (init_locals clock)
    = Ok (Diverged, st) ->
  exists loss,
    train_loss st = VTensor loss /\
    bad_loss loss = true /\
    train' batches =
      Ok (if is_nan loss then VInt 100 else VFloat (F32.to_f64 loss)).
Proof.
  intros H. pose proof (train_loop_loss_variable _ _ _ H) as Hl.
  destruct (reductions st) as [| r l]; [now destruct Hl |].
  destruct Hl as (Htl & [k Hk] & [rep Hrep] & Hbad).
  exists (mean_loss (red_sum r)). split; [done |]. split; [auto |].
  unfold train. rewrite H, bind_Ok. cbn beta iota.
  unfold print_summary. rewrite Hk, Hrep.
  unfold return_value. rewrite Htl.
  destruct (rank =? 0); rewrite !bind_Ok; cbn [torch_isnan];
    rewrite bind_Ok; now destruct (is_nan _).
Qed.

(** C10.  A run whose loop ends before any reduction has happened leaves
    the loss variable at the integer -1: [train] does not return, it
    raises at [torch.isnan(train_loss)], or earlier, on rank 0, at the
    unbound variables of the summary. *)
Theorem train_raises_without_boundary (batches : list batch)
    (ex : exit_reason) (st : locals) :
  train_loop' batches (start_step + 1) (init_locals clock) = Ok (ex, st) ->
  reductions st = [] ->
  train_loss st = VInt (-1) /\
  train' batches =
    Raise (if rank =? 0 then UnboundLocalError else TypeError).
Proof.
  intros H Hnone. pose proof (train_loop_loss_variable _ _ _ H) as Hl.
  rewrite Hnone in Hl. destruct Hl as (Htl & Hrep & _). split; [done |].
  unfold train. rewrite H, bind_Ok. cbn beta iota.
  unfold print_summary, return_value. rewrite Hrep, Htl.
  destruct (rank =? 0); [now destruct (batch_idx st) | reflexivity].
Qed.

(** C4.  [run] does not return: it raises when the scheduler is built
    or, failing that, at the call of [train], which passes eleven
    arguments to nine parameters; and were the call to go through, the
    [.item()] applied to what [train] returns, a [float] or the [int]
    100, raises as well. *)
Theorem run_never_returns (batches : list batch)
    (libm_cos libm_sq : spec_float -> spec_float) (training_stage : string)
    (is_resuming : bool) :
  is_ok (run libm_cos libm_sq training_stage cfg rank world_size start_step
           tokens_seen is_resuming clock peers batches) = false /\
  is_ok (train' batches ≫= py_item) = false.
Proof.
  split.
  { unfold run. now destruct (lr_lambda _ _ _ _ _ _). }
  unfold train.
  destruct (train_loop' batches (start_step + 1) (init_locals clock))
    as [[ex st] |]; [| reflexivity].
  rewrite bind_Ok. cbn beta iota.
  destruct (print_summary rank st); [| reflexivity].
  rewrite bind_Ok. unfold return_value.
  destruct (train_loss st) as [| | | | f]; try reflexivity.
  cbn [torch_isnan]. rewrite bind_Ok. now destruct (is_nan f).
Qed.

(** Steps and the reporting interval. *)
Lemma mod_pred_boundary (k n : Z) :
  0 < n -> k mod n = 0 -> (k - 1) mod n = n - 1.
Proof.
  intros Hn Hk. symmetry. apply (Z.mod_unique_pos _ _ (k / n - 1)); [lia |].
  pose proof (Z.div_mod k n ltac:(lia)). nia.
Qed.

Lemma mod_pred_inside (k n : Z) :
  0 < n -> k mod n <> 0 -> (k - 1) mod n = k mod n - 1.
Proof.
  intros Hn Hk. symmetry. apply (Z.mod_unique_pos _ _ (k / n)).
  - pose proof (Z.mod_pos_bound k n Hn). lia.
  - pose proof (Z.div_mod k n ltac:(lia)). lia.
Qed.

Lemma multiples_apart (a b n : Z) :
  0 < n -> a mod n = 0 -> b mod n = 0 -> a < b -> a + n <= b.
Proof.
  intros Hn Ha Hb Hlt.
  pose proof (Z.div_mod a n ltac:(lia)) as Ea.
  pose proof (Z.div_mod b n ltac:(lia)) as Eb.
  rewrite Ha in Ea. rewrite Hb in Eb.
  assert (a / n + 1 <= b / n) by nia. nia.
Qed.

(** C8, amended.  With a positive reporting interval, the local step
    count passed to the reduction at step [k] is
    [min(report_interval, k - start_step)], held in float32 and so capped
    at 2^24: it is [report_interval] at every reduction but the first one
    of a run, where it is smaller when the run was resumed at a
    [start_step] that is not a multiple of the interval.  Every reduction
    happens at a multiple of the interval (a final partial window is never
    reduced), and the boundary block that issued it leaves all three
    components of the statistics at zero. *)
Theorem step_count_at_each_reduction (batches : list batch)
    (ex : exit_reason) (st : locals) :
  0 < report_interval cfg ->
  train_loop' batches (start_step + 1) (init_locals clock) = Ok (ex, st) ->
  Forall (fun r =>
            steps (red_local r)
              = F32.of_Z (Z.min 16777216
                            (Z.min (report_interval cfg)
                                   (red_step r - start_step))) /\
            red_step r mod report_interval cfg = 0 /\
            start_step < red_step r) (reductions st) /\
  (forall r r', r ∈ reductions st -> r' ∈ reductions st ->
     red_step r' < red_step r ->
     steps (red_local r)
       = F32.of_Z (Z.min 16777216 (report_interval cfg))) /\
  (start_step mod report_interval cfg = 0 ->
   Forall (fun r => steps (red_local r)
                    = F32.of_Z (Z.min 16777216 (report_interval cfg)))
     (reductions st)) /\
  (forall k s loss s',
     report_block' k s = Ok (loss, s') ->
     ddp_stats s' =
       {| loss_sum := S754_zero false; gnorm_sum := S754_zero false;
          steps := S754_zero false |} /\
     exists r, reductions s' = r :: reductions s /\
               red_step r = k /\ red_local r = ddp_stats s).
Proof.
  intros Hpos H.
  set (counted := fun r : reduction =>
         steps (red_local r)
           = F32.of_Z (Z.min 16777216
                         (Z.min (report_interval cfg)
                                (red_step r - start_step))) /\
         red_step r mod report_interval cfg = 0 /\
         start_step < red_step r).
  assert (Hlog : Forall counted (reductions st)).
  { set (I := fun (idx : Z) (s : locals) =>
           start_step < idx /\
           steps (ddp_stats s)
             = F32.of_Z (Z.min 16777216
                           (Z.min (idx - 1 - start_step)
                                  ((idx - 1) mod report_interval cfg))) /\
           Forall counted (reductions s)).
    revert H. apply (train_loop_rule I (fun _ s => Forall counted (reductions s))).
    - now intros idx s (_ & _ & ?).
    - now intros idx s (_ & _ & ?) _.
    - intros idx s b (Hlt & Hs & Hf) _ _ Hmod. unfold I. simpl.
      pose proof (Z.mod_pos_bound (idx - 1) _ Hpos) as Hb.
      repeat split; [lia | | done].
      rewrite Hs, count_step by lia. do 2 f_equal.
      replace (idx + 1 - 1) with idx by lia.
      rewrite (mod_pred_inside idx _ Hpos Hmod). lia.
    - intros idx s b loss s' (Hlt & Hs & Hf) _ _ Hmod Hrep.
      apply report_block_spec in Hrep as (_ & Hz & _ & _ & _ & Hred & _).
      pose proof (Z.mod_pos_bound (idx - 1) _ Hpos) as Hb.
      assert (Hf' : Forall counted (reductions s')).
      { rewrite Hred. constructor; [| done]. unfold counted. simpl.
        repeat split; [| done | lia].
        rewrite Hs, count_step by lia. do 2 f_equal.
        rewrite (mod_pred_boundary idx _ Hpos Hmod). lia. }
      destruct (guard idx loss); [done |]. unfold I.
      replace (idx + 1 - 1) with idx by lia.
      rewrite Hz, Hmod. simpl. repeat split; [lia | | done].
      replace (Z.min 16777216 _) with 0 by lia. reflexivity.
    - unfold I. simpl. repeat split; [lia | | constructor].
      replace (start_step + 1 - 1) with start_step by lia.
      pose proof (Z.mod_pos_bound start_step _ Hpos).
      replace (Z.min 16777216 _) with 0 by lia. reflexivity. }
  rewrite Forall_forall in Hlog.
  split; [now apply Forall_forall |]. split; [| split].
  - intros r r' Hr Hr' Hlt.
    destruct (Hlog _ Hr) as (Hc & Hm & Hs).
    destruct (Hlog _ Hr') as (_ & Hm' & Hs').
    pose proof (multiples_apart _ _ _ Hpos Hm' Hm Hlt).
    rewrite Hc. do 2 f_equal. lia.
  - intros Hal. apply Forall_forall. intros r Hr.
    destruct (Hlog _ Hr) as (Hc & Hm & Hs).
    pose proof (multiples_apart _ _ _ Hpos Hal Hm Hs).
    rewrite Hc. do 2 f_equal. lia.
  - intros k s loss s' Hrep.
    apply report_block_spec in Hrep as (_ & Hz & _ & _ & _ & Hred & _).
    split; [exact Hz |]. eauto.
Qed.


End TrainFacts.

(** ** The claims on concrete runs *)

(** C2, as stated, fails: the run, resumed at step 700, reduces at steps
    800 and 900 and leaves through the divergence guard at step 1000 with
    a reduced mean loss of 7; [train] returns 7.0, not the sentinel. *)
Lemma diverged_run_returns_loss :
  (r ← Run.loop7; Ok (r.1, batch_idx r.2, red_step <$> reductions r.2))
    = Ok (Diverged, Some 1000, [1000; 900; 800]) /\
  Run.train7 = Ok (VFloat (F64.of_Z 7)) /\
  VFloat (F64.of_Z 7) <> VInt 100.
Proof.
  split; [vm_compute; reflexivity |].
  split; [vm_compute; reflexivity | discriminate].
Qed.

Lemma diverged_run_returns_sentinel_only_for_nan_witness :
  train_loop Run.cfg 1 700 0 Run.clock Run.alone Run.nan_batches (700 + 1)
    (init_locals Run.clock) = Ok (Diverged, Run.final_state Run.loop_nan) /\
  exists loss,
    train_loss (Run.final_state Run.loop_nan) = VTensor loss /\
    bad_loss loss = true /\
    train Run.cfg 1 1 700 0 Run.clock Run.alone Run.nan_batches =
      Ok (if is_nan loss then VInt 100 else VFloat (F32.to_f64 loss)).
Proof.
  assert (H : train_loop Run.cfg 1 700 0 Run.clock Run.alone
                Run.nan_batches (700 + 1) (init_locals Run.clock)
              = Ok (Diverged, Run.final_state Run.loop_nan))
    by (vm_compute; reflexivity).
  split; [exact H |].
  exact (diverged_run_returns_sentinel_only_for_nan Run.cfg 1 1 700 0
           Run.clock Run.alone Run.nan_batches _ H).
Defined.

Lemma guard_fires_at_first_divergence_witness :
  train_loop Run.cfg 2 700 0 Run.clock (Run.peer 7) (Run.steady 7 400)
    (700 + 1) (init_locals Run.clock)
  = Ok (Diverged, Run.final_state Run.loop7) /\
  (red_step <$> reductions (Run.final_state Run.loop7) = [1000; 900; 800] /\
   (fun r => SFdiv 24 128 (loss_sum (red_sum r)) (steps (red_sum r)))
     <$> reductions (Run.final_state Run.loop7)
   = [F32.of_Z 7; F32.of_Z 7; F32.of_Z 7]) /\
  exists r earlier,
    reductions (Run.final_state Run.loop7) = r :: earlier /\
    (999 < red_step r /\
     (SFdiv 24 128 (loss_sum (red_sum r)) (steps (red_sum r)) = S754_nan \/
      SFltb (S754_finite false 12582912 (-21))
        (SFdiv 24 128 (loss_sum (red_sum r)) (steps (red_sum r))) = true)) /\
    Forall (fun r' =>
              ~ (999 < red_step r' /\
                 (SFdiv 24 128 (loss_sum (red_sum r')) (steps (red_sum r'))
                  = S754_nan \/
                  SFltb (S754_finite false 12582912 (-21))
                    (SFdiv 24 128 (loss_sum (red_sum r'))
                       (steps (red_sum r'))) = true))) earlier /\
    batch_idx (Run.final_state Run.loop7) = Some (red_step r) /\
    optimizer_steps (Run.final_state Run.loop7) = red_step r - 700 /\
    train_loss (Run.final_state Run.loop7)
      = VTensor (SFdiv 24 128 (loss_sum (red_sum r)) (steps (red_sum r))).
Proof.
  assert (H : train_loop Run.cfg 2 700 0 Run.clock (Run.peer 7)
                (Run.steady 7 400) (700 + 1) (init_locals Run.clock)
              = Ok (Diverged, Run.final_state Run.loop7))
    by (vm_compute; reflexivity).
  split; [exact H |].
  split; [split; vm_compute; reflexivity |].
  exact (proj2 (proj2 (guard_fires_at_first_divergence Run.cfg 2 700 0
                         Run.clock (Run.peer 7) (Run.steady 7 400) _ _ H))).
Defined.

(** C8, as stated, fails: resumed at step 5 with an interval of 10, the
    run reduces at steps 10, 20 and 30, and the local count before the
    first of the three reductions is 5. *)
Lemma first_window_of_resumed_run_is_short :
  (r ← Run.resumed;
   Ok ((fun r => (red_step r, steps (red_local r))) <$> reductions r.2,
       counts_as_specified (report_interval Run.cfg10) (reductions r.2)))
  = Ok ([ (30, F32.of_Z 10); (20, F32.of_Z 10); (10, F32.of_Z 5) ], false).
Proof. vm_compute. reflexivity. Qed.

Lemma step_count_at_each_reduction_witness :
  0 < report_interval Run.cfg10 /\
  train_loop Run.cfg10 1 5 0 Run.clock Run.alone (Run.steady 2 40) (5 + 1)
    (init_locals Run.clock)
  = Ok (BudgetReached, Run.final_state Run.resumed) /\
  Forall (fun r =>
            steps (red_local r)
              = F32.of_Z (Z.min 16777216
                            (Z.min (report_interval Run.cfg10)
                                   (red_step r - 5))) /\
            red_step r mod report_interval Run.cfg10 = 0 /\
            5 < red_step r) (reductions (Run.final_state Run.resumed)).
Proof.
  assert (Hpos : 0 < report_interval Run.cfg10) by reflexivity.
  assert (H : train_loop Run.cfg10 1 5 0 Run.clock Run.alone
                (Run.steady 2 40) (5 + 1) (init_locals Run.clock)
              = Ok (BudgetReached, Run.final_state Run.resumed))
    by (vm_compute; reflexivity).
  split; [exact Hpos |]. split; [exact H |].
  exact (proj1 (step_count_at_each_reduction Run.cfg10 1 5 0 Run.clock
                  Run.alone (Run.steady 2 40) _ _ Hpos H)).
Defined.



Lemma train_raises_without_boundary_witness :
  train_loop Run.cfg3 1 0 0 Run.clock Run.alone (Run.steady 2 8) (0 + 1)
    (init_locals Run.clock)
  = Ok (BudgetReached, Run.final_state Run.loop3) /\
  reductions (Run.final_state Run.loop3) = [] /\
  train Run.cfg3 0 1 0 0 Run.clock Run.alone (Run.steady 2 8)
    = Raise UnboundLocalError /\
  train Run.cfg3 1 1 0 0 Run.clock Run.alone (Run.steady 2 8)
    = Raise TypeError.
Proof.
  assert (H : train_loop Run.cfg3 1 0 0 Run.clock Run.alone
                (Run.steady 2 8) (0 + 1) (init_locals Run.clock)
              = Ok (BudgetReached, Run.final_state Run.loop3))
    by (vm_compute; reflexivity).
  assert (Hn : reductions (Run.final_state Run.loop3) = [])
    by (vm_compute; reflexivity).
  split; [exact H |]. split; [exact Hn |]. split.
  - exact (proj2 (train_raises_without_boundary Run.cfg3 0 1 0 0 Run.clock
                    Run.alone (Run.steady 2 8) _ _ H Hn)).
  - exact (proj2 (train_raises_without_boundary Run.cfg3 1 1 0 0 Run.clock
                    Run.alone (Run.steady 2 8) _ _ H Hn)).
Defined.

(** A trial of 10 steps of loss 2 on one worker, in the annealing stage:
    [train] returns 2.0; [.item()] is not defined on it, and [run] raises
    at the call.  In another stage a budget of 10 steps makes [run] raise
    earlier, when the scheduler is built. *)
Example completed_trial_is_lost :
  train Run.cfg_ok 1 1 0 0 Run.clock Run.alone (Run.steady 2 20)
    = Ok (VFloat (F64.of_Z 2)) /\
  py_item (VFloat (F64.of_Z 2)) = Raise AttributeError /\
  run Run.libm_unused Run.libm_unused "annealing" Run.cfg_ok 1 1 0 0 false
    Run.clock Run.alone (Run.steady 2 20) = Raise TypeError /\
  run Run.libm_unused Run.libm_unused "pretraining" Run.cfg_ok 1 1 0 0 false
    Run.clock Run.alone (Run.steady 2 20) = Raise ZeroDivisionError.
Proof. repeat split; vm_compute; reflexivity. Qed.

(** ** The search as a whole *)

(** A measure that every step of a fold advances by [c] has advanced by
    [c] per element at the end. *)
Lemma foldM_count {A B} (f : B -> A -> result A) (m : A -> nat) (c : nat)
    (l : list B) :
  (forall b a a', f b a = Ok a' -> m a' = (m a + c)%nat) ->
  forall a a', foldM f l a = Ok a' -> m a' = (m a + c * length l)%nat.
Proof.
  intros Hstep. induction l as [| b l IH]; simpl; intros a a' H.
  - injection H as <-. lia.
  - bind_inv H. apply Hstep in Ha. apply IH in H. lia.
Qed.

Lemma list_set_spec {A} (l l' : list A) (j : nat) (x : A) :
  list_set l j x = Ok l' -> l' = <[j := x]> l /\ (j < length l)%nat.
Proof.
  unfold list_set. destruct (decide _); [| discriminate].
  intros H. now injection H as <-.
Qed.

Section SearchShape.
Variable libm_pow2 : spec_float -> spec_float.
Variable run : nat -> obj -> result value.
Variable explore_ratio : value.
Variable cfg : loc.

(** What a probe that returns has done to the exponent vector. *)
Lemma probe_vector i j start_val sign (st st' : search_state) :
  probe libm_pow2 run explore_ratio cfg i j start_val sign st = Ok st' ->
  trials st' = S (trials st) /\
  (j < length (mup_scale_vals st))%nat /\
  (mup_scale_vals st' = mup_scale_vals st \/
   exists x, mup_scale_vals st' = <[j := x]> (mup_scale_vals st)).
Proof.
  unfold probe. intros H. do 3 bind_inv H.
  apply bind_ok in H as (candidate & Hc & H).
  apply list_set_spec in Hc as [-> Hj].
  apply bind_ok in H as ([h new_cfg] & _ & H).
  apply bind_ok in H as (new_loss & _ & H).
  unfold accept in H. apply bind_ok in H as (better & _ & H).
  injection H as <-. simpl.
  repeat split; [done |]. destruct better; eauto.
Qed.

Lemma probe_shape i j start_val sign (st st' : search_state) :
  probe libm_pow2 run explore_ratio cfg i j start_val sign st = Ok st' ->
  trials st' = S (trials st) /\
  length (mup_scale_vals st') = length (mup_scale_vals st) /\
  forall j', j' <> j -> mup_scale_vals st' !! j' = mup_scale_vals st !! j'.
Proof.
  intros H. apply probe_vector in H as (Ht & Hj & [-> | [x ->]]).
  - done.
  - rewrite length_insert. repeat split; [done |].
    intros j' Hne. now rewrite list_lookup_insert_ne.
Qed.

Lemma advance_shape i j (st st' : search_state) :
  advance libm_pow2 run explore_ratio cfg i j st = Ok st' ->
  trials st' = S (S (trials st)) /\
  length (mup_scale_vals st') = length (mup_scale_vals st) /\
  forall j', j' <> j -> mup_scale_vals st' !! j' = mup_scale_vals st !! j'.
Proof.
  unfold advance. intros H. do 2 bind_inv H.
  apply probe_shape in Ha0 as (Ht1 & Hl1 & Hf1).
  apply probe_shape in H as (Ht2 & Hl2 & Hf2).
  repeat split; [lia | lia |]. intros j' Hne.
  now rewrite Hf2, Hf1.
Qed.

(** X5.  The two probes of parameter [j] leave every other coordinate of
    the exponent vector as it was, and its length too. *)
Theorem advance_changes_one_coordinate i j (st st' : search_state) :
  advance libm_pow2 run explore_ratio cfg i j st = Ok st' ->
  length (mup_scale_vals st') = length (mup_scale_vals st) /\
  (j < length (mup_scale_vals st))%nat /\
  forall j', j' <> j -> mup_scale_vals st' !! j' = mup_scale_vals st !! j'.
Proof.
  intros H. pose proof (advance_shape _ _ _ _ H) as (_ & Hl & Hf).
  repeat split; [done | | done].
  unfold advance in H. bind_inv H. unfold list_get in Ha.
  destruct (mup_scale_vals st !! j) eqn:E; [| discriminate].
  now apply lookup_lt_Some in E.
Qed.

Lemma round_shape (i : nat) (st st' : search_state) :
  round libm_pow2 run explore_ratio cfg i st = Ok st' ->
  trials st' = (trials st + 12)%nat /\
  length (mup_scale_vals st') = length (mup_scale_vals st).
Proof.
  unfold round. intros H. split.
  - apply (foldM_count _ trials 2) in H; [simpl in H; lia |].
    intros j a a' Hadv. apply advance_shape in Hadv. lia.
  - apply (foldM_count _ (fun s => length (mup_scale_vals s)) 0) in H;
      [simpl in H; lia |].
    intros j a a' Hadv. apply advance_shape in Hadv. lia.
Qed.

(** X1.  A search that returns has run the baseline trial and two trials
    per parameter per round, [1 + 12 * mup_search_steps] in all (none but
    the baseline when [mup_search_steps] is not positive), and its
    exponent vector has one entry per muP parameter. *)
Theorem search_trial_count (h : heap) (n : Z) (st : search_state) :
  search libm_pow2 run explore_ratio cfg h n = Ok st ->
  Z.of_nat (trials st) = 1 + 12 * Z.max 0 n /\
  length (mup_scale_vals st) = length mup_params.
Proof.
  unfold search. intros H. bind_inv H.
  assert (Hb : trials a = 1%nat /\
               length (mup_scale_vals a) = length mup_params).
  { unfold baseline in Ha. bind_inv Ha. destruct a0 as [h1 new_cfg].
    bind_inv Ha. injection Ha as <-. simpl. done. }
  destruct Hb as [Ht Hl]. split.
  - apply (foldM_count _ trials 12) in H.
    + rewrite length_seq in H. lia.
    + intros i s s' Hr. now apply round_shape in Hr.
  - apply (foldM_count _ (fun s => length (mup_scale_vals s)) 0) in H.
    + lia.
    + intros i s s' Hr. apply round_shape in Hr. lia.
Qed.

End SearchShape.

(** ** More on [set_mups] *)

Lemma fst_zip_take {A B} (l : list A) (k : list B) :
  (zip l k).*1 = take (length k) l.
Proof.
  revert k. induction l as [| x l IH]; intros [| y k]; simpl; try done.
  now rewrite IH.
Qed.

Lemma F64_mul_comm (x y : spec_float) : F64.mul x y = F64.mul y x.
Proof.
  unfold F64.mul.
  destruct x as [sx | sx | | sx mx ex], y as [sy | sy | | sy my ey];
    simpl; try reflexivity; try (now rewrite xorb_comm).
  now rewrite xorb_comm, Pos.mul_comm, Z.add_comm.
Qed.

(** A product that computes does not depend on the order of its factors. *)
Lemma py_mul_comm_ok (a b c : value) :
  py_mul a b = Ok c -> py_mul b a = Ok c.
Proof.
  unfold py_mul.
  destruct a as [x | x | | |], b as [y | y | | |]; try discriminate;
    cbn [as_float]; try (destruct (float_of_int x); discriminate).
  - now rewrite Z.mul_comm.
  - destruct (float_of_int x) as [fx |]; [| discriminate].
    rewrite !bind_Ok. now rewrite F64_mul_comm.
  - destruct (float_of_int y) as [fy |]; [| rewrite bind_Ok; discriminate].
    rewrite !bind_Ok. now rewrite F64_mul_comm.
  - rewrite !bind_Ok. now rewrite F64_mul_comm.
Qed.

Section SetMupsMore.
Variable libm_pow2 : spec_float -> spec_float.
Variable explore_ratio : value.
Variable cfg : loc.

(** A loop that returns has computed every scaled value. *)
Lemma set_mups_loop_ok (new_cfg : loc) (kv : list (string * value)) :
  forall (h h2 : heap) (on : obj),
    new_cfg <> cfg ->
    h !! new_cfg = Some on ->
    set_mups_loop libm_pow2 explore_ratio cfg h new_cfg kv = Ok h2 ->
    Forall (fun p => is_ok (scaled libm_pow2 explore_ratio cfg h p.1 p.2)
                     = true) kv.
Proof.
  induction kv as [| [k v] kv IH]; intros h h2 on Hne Hn H.
  - constructor.
  - cbn [set_mups_loop] in H. apply bind_ok in H as (x & Hx & H).
    constructor; [simpl; now rewrite Hx |].
    rewrite (setattr_insert _ _ _ _ _ Hn) in H.
    eapply Forall_impl.
    + eapply IH; [done | | exact H]. now rewrite lookup_insert_eq.
    + intros [k' v'] Hok. simpl in *.
      erewrite scaled_same_base; [exact Hok |].
      now rewrite lookup_insert_ne.
Qed.

(** What [set_mups] has done when it returns, for vectors of any length:
    [zip] stops at the shorter of the two lists. *)
Lemma set_mups_result (h h' : heap) (o : obj) (mup_k : list string)
    (mup_v : list value) (new_cfg : loc) :
  h !! cfg = Some o ->
  NoDup mup_k ->
  set_mups libm_pow2 explore_ratio cfg h mup_k mup_v = Ok (h', new_cfg) ->
  exists o',
    h' = <[new_cfg := o']> h /\
    new_cfg <> cfg /\ h !! new_cfg = None /\
    (forall k, k ∉ take (length mup_v) mup_k -> o' !! k = o !! k) /\
    (forall k v, (k, v) ∈ zip mup_k mup_v ->
       exists x, scaled libm_pow2 explore_ratio cfg h k v = Ok x /\
                 o' !! k = Some x).
Proof.
  intros Hc Hnd H.
  destruct (deepcopy_spec h cfg o Hc) as (l' & Hd & Hfresh & Hne).
  unfold set_mups in H. rewrite Hd in H.
  apply bind_ok in H as (h2 & Hloop & H). injection H as <- <-.
  assert (Hsame : (<[l' := o]> h : heap) !! cfg = h !! cfg)
    by now rewrite lookup_insert_ne.
  assert (Hl' : (<[l' := o]> h : heap) !! l' = Some o)
    by now rewrite lookup_insert_eq.
  pose proof (set_mups_loop_ok l' _ _ _ _ Hne Hl' Hloop) as Hok.
  destruct (set_mups_loop_spec libm_pow2 explore_ratio cfg l'
              (zip mup_k mup_v) (<[l' := o]> h) o Hne Hl')
    as (o' & Hrun & Hframe & Hval).
  - rewrite fst_zip_take.
    eapply sublist_NoDup; [exact Hnd | apply sublist_take].
  - exact Hok.
  - exists o'. rewrite Hrun in Hloop. injection Hloop as <-.
    rewrite insert_insert_eq. repeat split; try done.
    + intros k Hk. apply Hframe. now rewrite fst_zip_take.
    + intros k v Hin. destruct (Hval _ _ Hin) as (x & Hx & Hl).
      exists x. split; [| done].
      now rewrite <- (scaled_same_base _ _ _ _ _ _ _ Hsame).
Qed.

End SetMupsMore.

Section SetMupsEdges.
Variable libm_pow2 : spec_float -> spec_float.
Variable explore_ratio : value.
Variable cfg : loc.

(** X7.  An exponent vector shorter than the list of names is no error:
    [zip] stops at its end, and the names beyond it keep the base value
    in the derived configuration. *)
Theorem set_mups_short_vector (h h' : heap) (o : obj) (mup_v : list value)
    (new_cfg : loc) :
  h !! cfg = Some o ->
  set_mups libm_pow2 explore_ratio cfg h mup_params mup_v
    = Ok (h', new_cfg) ->
  exists o',
    h' !! new_cfg = Some o' /\
    forall i k, mup_params !! i = Some k -> (length mup_v <= i)%nat ->
                o' !! k = o !! k.
Proof.
  intros Hc H.
  destruct (set_mups_result libm_pow2 explore_ratio cfg h h' o mup_params
              mup_v new_cfg Hc mup_params_NoDup H)
    as (o' & -> & _ & _ & Hframe & _).
  exists o'. split; [now rewrite lookup_insert_eq |].
  intros i k Hk Hi. apply Hframe. intros Hin.
  apply list_elem_of_lookup in Hin as [i' Hi'].
  pose proof (lookup_lt_Some _ _ _ Hi') as Hlt.
  rewrite length_take in Hlt.
  rewrite lookup_take_lt in Hi' by lia.
  pose proof (NoDup_lookup _ _ _ _ mup_params_NoDup Hk Hi'). lia.
Qed.

(** The loop stops with [AttributeError] at the first name that the base
    configuration does not have. *)
Lemma set_mups_loop_missing (o : obj) (new_cfg : loc) k v
    (kv2 : list (string * value)) (kv1 : list (string * value)) :
  forall (h : heap) (on : obj),
    new_cfg <> cfg ->
    h !! new_cfg = Some on ->
    h !! cfg = Some o ->
    o !! k = None ->
    Forall (fun p => is_ok (scaled libm_pow2 explore_ratio cfg h p.1 p.2)
                     = true) kv1 ->
    set_mups_loop libm_pow2 explore_ratio cfg h new_cfg
      (kv1 ++ (k, v) :: kv2) = Raise AttributeError.
Proof.
  induction kv1 as [| [k1 v1] kv1 IH]; intros h on Hne Hn Hc Hk Hok.
  - cbn [app set_mups_loop]. unfold scaled, getattr. now rewrite Hc, Hk.
  - apply Forall_cons in Hok as [Hx Hok]. simpl in Hx.
    cbn [app set_mups_loop].
    destruct (scaled libm_pow2 explore_ratio cfg h k1 v1) as [x |] eqn:Ex;
      [| discriminate].
    rewrite bind_Ok, (setattr_insert _ _ _ _ _ Hn).
    assert (Hsame : (<[new_cfg := <[k1 := x]> on]> h : heap) !! cfg
                    = h !! cfg) by now rewrite lookup_insert_ne.
    apply (IH _ (<[k1 := x]> on)); try done.
    + now rewrite lookup_insert_eq.
    + now rewrite Hsame.
    + eapply Forall_impl; [exact Hok |]. intros [k' v'] H. simpl in *.
      now rewrite (scaled_same_base _ _ _ _ _ _ _ Hsame).
Qed.

(** X8.  When the base configuration lacks the attribute named by
    [mup_k[i]], the values before it compute and the exponent vector
    reaches position [i], [set_mups] raises [AttributeError]. *)
Theorem set_mups_missing_attribute (h : heap) (o : obj)
    (mup_k : list string) (mup_v : list value) (i : nat) k :
  h !! cfg = Some o ->
  mup_k !! i = Some k ->
  (i < length mup_v)%nat ->
  o !! k = None ->
  Forall (fun p => is_ok (scaled libm_pow2 explore_ratio cfg h p.1 p.2)
                   = true) (take i (zip mup_k mup_v)) ->
  set_mups libm_pow2 explore_ratio cfg h mup_k mup_v
    = Raise AttributeError.
Proof.
  intros Hc Hk Hi Hnone Hok.
  destruct (lookup_lt_is_Some_2 mup_v i Hi) as [v Hv].
  assert (Hz : zip mup_k mup_v !! i = Some (k, v)).
  { rewrite lookup_zip_with, Hk. simpl. now rewrite Hv. }
  destruct (deepcopy_spec h cfg o Hc) as (l' & Hd & Hfresh & Hne).
  unfold set_mups. rewrite Hd.
  rewrite <- (take_drop_middle _ _ _ Hz).
  assert (Hsame : (<[l' := o]> h : heap) !! cfg = h !! cfg)
    by now rewrite lookup_insert_ne.
  rewrite (set_mups_loop_missing o l' k v _ _ (<[l' := o]> h) o); try done.
  - now rewrite lookup_insert_eq.
  - now rewrite Hsame.
  - eapply Forall_impl; [exact Hok |]. intros [k' v'] H. simpl in *.
    now rewrite (scaled_same_base _ _ _ _ _ _ _ Hsame).
Qed.

(** The value reported last for parameter [i] is the value [set_mups]
    writes for it. *)
Lemma final_value_scaled (h : heap) (vals : list value) (i : nat) k v x :
  mup_params !! i = Some k -> vals !! i = Some v ->
  scaled libm_pow2 explore_ratio cfg h k v = Ok x ->
  final_value libm_pow2 explore_ratio cfg h vals i = Ok x.
Proof.
  intros Hk Hv Hx. unfold final_value, list_get.
  rewrite Hk, bind_Ok. unfold scaled in Hx.
  apply bind_ok in Hx as (base & Hb & Hx). rewrite Hb, bind_Ok, Hv, bind_Ok.
  apply bind_ok in Hx as (e & He & Hx).
  now rewrite (py_mul_comm_ok _ _ _ He), bind_Ok.
Qed.

(** X6.  The values reported at the end of the search for an exponent
    vector are the six values [set_mups] writes into the configuration it
    derives for that vector: the two places compute the same scaling. *)
Theorem final_matches_set_mups (h h' : heap) (o : obj) (vals : list value)
    (new_cfg : loc) :
  h !! cfg = Some o ->
  length vals = length mup_params ->
  set_mups libm_pow2 explore_ratio cfg h mup_params vals
    = Ok (h', new_cfg) ->
  exists o',
    h' !! new_cfg = Some o' /\
    final libm_pow2 explore_ratio cfg h vals = Ok (base_values o').
Proof.
  intros Hc Hlen H.
  destruct (set_mups_result libm_pow2 explore_ratio cfg h h' o mup_params
              vals new_cfg Hc mup_params_NoDup H)
    as (o' & -> & _ & _ & _ & Hval).
  exists o'. split; [now rewrite lookup_insert_eq |].
  assert (Hv : forall i k v, mup_params !! i = Some k -> vals !! i = Some v ->
             final_value libm_pow2 explore_ratio cfg h vals i
             = Ok (default VNone (o' !! k))).
  { intros i k v Hk Hvi. destruct (Hval k v) as (x & Hx & ->).
    - apply list_elem_of_lookup. exists i.
      rewrite lookup_zip_with, Hk. simpl. now rewrite Hvi.
    - now apply (final_value_scaled h vals i k v x). }
  destruct vals as [| v0 [| v1 [| v2 [| v3 [| v4 [| v5 [| ? ?]]]]]]];
    try discriminate.
  unfold final, base_values, mup_params.
  cbn [length seq mapM fmap list_fmap].
  rewrite (Hv 0%nat _ _ eq_refl eq_refl), (Hv 1%nat _ _ eq_refl eq_refl),
    (Hv 2%nat _ _ eq_refl eq_refl), (Hv 3%nat _ _ eq_refl eq_refl),
    (Hv 4%nat _ _ eq_refl eq_refl), (Hv 5%nat _ _ eq_refl eq_refl).
  reflexivity.
Qed.

End SetMupsEdges.

(** ** Comparison of losses *)

Lemma SFcompare_antisym (x y : spec_float) :
  SFcompare y x = CompOpp <$> SFcompare x y.
Proof.
  destruct x as [sx | sx | | sx mx ex], y as [sy | sy | | sy my ey];
    simpl; try reflexivity;
    try (destruct sx; reflexivity); try (destruct sy; reflexivity);
    try (destruct sx, sy; reflexivity).
  pose proof (Pos.compare_cont_antisym mx my Eq) as Hm. simpl in Hm.
  destruct sx, sy; simpl; try reflexivity;
    rewrite (Z.compare_antisym ex ey);
    destruct (ex ?= ey); simpl; try reflexivity;
    rewrite <- Hm; now destruct (Pos.compare_cont Eq mx my).
Qed.

Lemma py_compare_antisym (a b : value) (c : option comparison) :
  py_compare a b = Ok c -> py_compare b a = Ok (CompOpp <$> c).
Proof.
  destruct a as [x | x | | |], b as [y | y | | |]; try discriminate;
    simpl; intros H; injection H as <-.
  - now rewrite (Z.compare_antisym x y).
  - reflexivity.
  - destruct (Zcompare_float y x) as [[| |] |]; reflexivity.
  - now rewrite SFcompare_antisym.
Qed.

(** X4.  A candidate whose loss is not below the current best loss (the
    best loss is less than or equal to it: a worse trial, or a tie) is
    not adopted: the acceptance test returns with the exponent vector as
    it was. *)
Theorem candidate_not_better_is_rejected (st : search_state) (h : heap)
    (candidate : list value) (new_loss : value) :
  py_le (best_loss st) new_loss = Ok true ->
  accept st h candidate new_loss =
  Ok {| s_heap := h; mup_scale_vals := mup_scale_vals st;
        best_loss := best_loss st; trials := S (trials st) |}.
Proof.
  intros Hle. apply accept_unfold with (better := false).
  unfold py_le in Hle. apply bind_ok in Hle as (c & Hc & Hle).
  unfold py_lt. rewrite (py_compare_antisym _ _ _ Hc), bind_Ok.
  destruct c as [[| |] |]; simpl in *; congruence.
Qed.

Lemma candidate_not_better_is_rejected_witness :
  py_le (best_loss Scenario.state2) (VFloat (F64.of_Z 2)) = Ok true /\
  accept Scenario.state2 Scenario.heap0 Scenario.some_vector
    (VFloat (F64.of_Z 2)) =
  Ok {| s_heap := Scenario.heap0;
        mup_scale_vals := mup_scale_vals Scenario.state2;
        best_loss := best_loss Scenario.state2;
        trials := S (trials Scenario.state2) |}.
Proof.
  assert (H : py_le (best_loss Scenario.state2) (VFloat (F64.of_Z 2))
              = Ok true) by reflexivity.
  split; [exact H |].
  exact (candidate_not_better_is_rejected Scenario.state2 Scenario.heap0
           Scenario.some_vector _ H).
Defined.

(** ** The heap during the search *)

Section SearchHeap.
Variable libm_pow2 : spec_float -> spec_float.
Variable run : nat -> obj -> result value.
Variable explore_ratio : value.
Variable cfg : loc.

Lemma set_mups_heap_kept (h0 h h' : heap) (o : obj) (vals : list value)
    (new_cfg : loc) (n : nat) :
  h0 !! cfg = Some o ->
  (forall l, is_Some (h0 !! l) -> h !! l = h0 !! l) ->
  size h = (size h0 + n)%nat ->
  set_mups libm_pow2 explore_ratio cfg h mup_params vals
    = Ok (h', new_cfg) ->
  (forall l, is_Some (h0 !! l) -> h' !! l = h0 !! l) /\
  size h' = (size h0 + S n)%nat.
Proof.
  intros Hc Hkeep Hsize H.
  assert (Hc' : h !! cfg = Some o) by (rewrite Hkeep; [done | eauto]).
  destruct (set_mups_result libm_pow2 explore_ratio cfg h h' o mup_params
              vals new_cfg Hc' mup_params_NoDup H)
    as (o' & -> & _ & Hfresh & _). split.
  - intros l Hl. rewrite lookup_insert_ne; [auto |].
    intros <-. rewrite <- Hkeep in Hl by done. rewrite Hfresh in Hl.
    now destruct Hl.
  - rewrite map_size_insert_None by done. lia.
Qed.

Lemma probe_heap_kept (h0 : heap) (o : obj) i j start_val sign
    (st st' : search_state) :
  h0 !! cfg = Some o ->
  heap_kept h0 st ->
  probe libm_pow2 run explore_ratio cfg i j start_val sign st = Ok st' ->
  heap_kept h0 st'.
Proof.
  intros Hc [Hkeep Hsize] H.
  apply probe_unfold in H as (c & h & n & l & Hset & _ & H).
  unfold accept in H. apply bind_ok in H as (b & _ & H).
  injection H as <-. unfold heap_kept. simpl.
  eapply set_mups_heap_kept; eauto.
Qed.

(** X2.  The search never touches an object that existed before it, the
    base configuration included: every such object is in the final heap
    as it was, and the heap has grown by exactly one derived
    configuration per trial. *)
Theorem search_preserves_heap (h : heap) (o : obj) (n : Z)
    (st : search_state) :
  h !! cfg = Some o ->
  search libm_pow2 run explore_ratio cfg h n = Ok st ->
  s_heap st !! cfg = Some o /\
  (forall l, is_Some (h !! l) -> s_heap st !! l = h !! l) /\
  size (s_heap st) = (size h + trials st)%nat.
Proof.
  intros Hc H.
  assert (Hk : heap_kept h st).
  { unfold search in H. apply bind_ok in H as (st0 & Hb & H).
    assert (H0 : heap_kept h st0).
    { unfold baseline in Hb.
      apply bind_ok in Hb as ([h1 new_cfg] & Hset & Hb).
      apply bind_ok in Hb as (loss & _ & Hb). injection Hb as <-.
      unfold heap_kept. simpl.
      eapply (set_mups_heap_kept h h h1 o _ new_cfg 0); eauto. }
    revert H. apply foldM_invariant; [| exact H0].
    intros i s s' Hs Hr. unfold round in Hr. revert Hr.
    apply foldM_invariant; [| exact Hs].
    intros j t t' Ht Hadv. unfold advance in Hadv.
    apply bind_ok in Hadv as (sv & _ & Hadv).
    apply bind_ok in Hadv as (t1 & Hp1 & Hp2).
    eapply probe_heap_kept; [exact Hc | | exact Hp2].
    eapply probe_heap_kept; [exact Hc | exact Ht | exact Hp1]. }
  destruct Hk as [Hkeep Hsize].
  split; [rewrite Hkeep; [done | eauto] |]. done.
Qed.

(** X3.  The best loss never moves during the rounds: at the end of the
    search it is the loss that the baseline trial, the first call of
    [run], on the configuration derived for the zero vector, returned. *)
Theorem search_keeps_baseline_loss (h : heap) (n : Z) (st : search_state) :
  search libm_pow2 run explore_ratio cfg h n = Ok st ->
  exists (h1 : heap) (new_cfg : loc),
    set_mups libm_pow2 explore_ratio cfg h mup_params
      ((fun _ => VInt 0) <$> mup_params) = Ok (h1, new_cfg) /\
    run 0%nat (default ∅ (h1 !! new_cfg)) = Ok (best_loss st).
Proof.
  unfold search. intros H. apply bind_ok in H as (st0 & Hb & H).
  set (P := fun s : search_state => best_loss s = best_loss st0).
  assert (Hst : P st).
  { apply (foldM_invariant _ P _) with (a := st0) (a' := st) in H;
      [done | | done].
    intros i s s' Hs Hr. unfold round in Hr.
    apply (foldM_invariant _ P _) with (a := s) (a' := s') in Hr;
      [done | | done].
    intros j t t' Ht Hadv. apply advance_best_loss in Hadv.
    unfold P in *. congruence. }
  unfold P in Hst. rewrite Hst.
  unfold baseline in Hb. apply bind_ok in Hb as ([h1 new_cfg] & Hset & Hb).
  apply bind_ok in Hb as (loss & Hrun & Hb). injection Hb as <-.
  exists h1, new_cfg. split; [exact Hset | exact Hrun].
Qed.

End SearchHeap.

(** ** Rounding never produces not-a-number *)

Lemma iter_pos_invariant {A} (f : A -> A) (P : A -> Prop) :
  (forall x, P x -> P (f x)) ->
  forall (n : positive) (x : A), P x -> P (SpecFloat.iter_pos f n x).
Proof.
  intros Hf. induction n as [n IH | n IH |]; intros x Hx; simpl; auto.
Qed.

Lemma shr_1_nonneg (r : shr_record) : 0 <= shr_m r -> 0 <= shr_m (shr_1 r).
Proof.
  destruct r as [m r s]. simpl.
  destruct m as [| [p | p |] | [p | p |]]; simpl; lia.
Qed.

Lemma shr_fexp_nonneg (prec emax m e : Z) (l : location) :
  0 <= m -> 0 <= shr_m (shr_fexp prec emax m e l).1.
Proof.
  intros Hm. unfold shr_fexp, shr.
  assert (H0 : 0 <= shr_m (shr_record_of_loc m l))
    by (destruct l as [| []]; exact Hm).
  destruct (fexp prec emax (Zdigits2 m + e) - e) as [| p | p]; simpl;
    try exact H0.
  apply (iter_pos_invariant shr_1 (fun r => 0 <= shr_m r)); [| exact H0].
  apply shr_1_nonneg.
Qed.

Lemma round_nearest_even_nonneg (m : Z) (l : location) :
  0 <= m -> 0 <= round_nearest_even m l.
Proof.
  intros Hm. destruct l as [| []]; simpl; try lia.
  destruct (Z.even m); lia.
Qed.

Lemma binary_round_aux_not_nan (prec emax : Z) (s : bool) (m e : Z)
    (l : location) :
  0 <= m -> is_nan (binary_round_aux prec emax s m e l) = false.
Proof.
  intros Hm. unfold binary_round_aux.
  pose proof (shr_fexp_nonneg prec emax m e l Hm) as H1.
  destruct (shr_fexp prec emax m e l) as [mrs' e']. simpl in H1.
  pose proof (shr_fexp_nonneg prec emax _ e' loc_Exact
                (round_nearest_even_nonneg _ (loc_of_shr_record mrs') H1))
    as H2.
  destruct (shr_fexp prec emax _ e' loc_Exact) as [mrs'' e'']. simpl in H2.
  destruct (shr_m mrs'') as [| p | p]; [reflexivity | | lia].
  now destruct (e'' <=? emax - prec).
Qed.

(** [Tensor.item()] is not-a-number exactly when the tensor is. *)
Lemma to_f64_nan (f : spec_float) : is_nan (F32.to_f64 f) = is_nan f.
Proof.
  destruct f as [s | s | | s m e]; try reflexivity.
  unfold F32.to_f64, binary_round.
  destruct (shl_align m e _) as [mz ez].
  now apply binary_round_aux_not_nan.
Qed.

(** ** More on the training loop *)

Section TrainMore.
Variable cfg : train_cfg.
Variable rank world_size start_step tokens_seen : Z.
Variable clock : nat -> spec_float.
Variable peers : Z -> list stats.

(** X9.  What [train] returns is always comparable: the sentinel 100 or a
    float that is not not-a-number. *)
Theorem train_never_returns_nan (batches : list batch) (v : value) :
  train cfg rank world_size start_step tokens_seen clock peers batches
    = Ok v ->
  v = VInt 100 \/ exists f, v = VFloat f /\ is_nan f = false.
Proof.
  unfold train. intros H. apply bind_ok in H as ([ex st] & _ & H).
  apply bind_ok in H as (u & _ & H). unfold return_value in H.
  destruct (train_loss st) as [| | | | f]; try discriminate.
  cbn [torch_isnan] in H. rewrite bind_Ok in H.
  destruct (is_nan f) eqn:En; simpl in H; injection H as <-.
  - now left.
  - right. eexists. split; [reflexivity |]. now rewrite to_f64_nan.
Qed.

(** The loop consumes at most one batch per optimizer step, and all of
    them when it ends because the loader ran out. *)
Lemma train_loop_consumes (batches : list batch) :
  forall idx st ex st',
    train_loop cfg world_size start_step tokens_seen clock peers batches
      idx st = Ok (ex, st') ->
    optimizer_steps st <= optimizer_steps st' <=
      optimizer_steps st + Z.of_nat (length batches) /\
    (ex = Exhausted ->
     optimizer_steps st' = optimizer_steps st + Z.of_nat (length batches)).
Proof.
  induction batches as [| b rest IH]; intros idx st ex st' H.
  - injection H as <- <-. simpl. lia.
  - cbn [train_loop] in H.
    destruct (idx >? num_steps cfg).
    { injection H as <- <-. simpl. split; [lia | discriminate]. }
    apply bind_ok in H as (r & _ & H).
    destruct (r =? 0).
    + apply bind_ok in H as ([loss st1] & Hrep & H).
      apply report_block_spec in Hrep as (_ & _ & _ & _ & Hos & _).
      simpl in Hos.
      destruct (guard idx loss).
      * injection H as <- <-. split; [simpl length; lia | discriminate].
      * apply IH in H as [H1 H2]. simpl length.
        split; [lia | intros E; specialize (H2 E); lia].
    + apply IH in H as [H1 H2]. simpl in H1, H2. simpl length.
      split; [lia | intros E; specialize (H2 E); lia].
Qed.

Lemma train_loop_budget (batches : list batch) (ex : exit_reason)
    (st : locals) :
  train_loop cfg world_size start_step tokens_seen clock peers batches
    (start_step + 1) (init_locals clock) = Ok (ex, st) ->
  0 <= optimizer_steps st <= Z.max 0 (num_steps cfg - start_step) /\
  match ex with
  | Exhausted => True
  | BudgetReached =>
      optimizer_steps st = Z.max 0 (num_steps cfg - start_step) /\
      batch_idx st = Some (start_step + optimizer_steps st + 1)
  | Diverged =>
      exists k, batch_idx st = Some k /\ 999 < k <= num_steps cfg /\
                optimizer_steps st = k - start_step
  end.
Proof.
  set (I := fun (idx : Z) (s : locals) =>
         start_step < idx /\
         idx - 1 <= Z.max start_step (num_steps cfg) /\
         optimizer_steps s = idx - 1 - start_step).
  intros H. pattern ex, st.
  match goal with
  | |- ?Q ex st =>
      refine (train_loop_rule cfg world_size start_step tokens_seen clock
                peers I Q _ _ _ _ batches _ _ ex st _ H)
  end; clear batches ex st H; cbv beta.
  - intros idx st (H1 & H2 & H3). lia.
  - intros idx st (H1 & H2 & H3) Hgt. simpl. rewrite H3.
    split; [lia |]. split; [lia |]. f_equal. lia.
  - intros idx st b (H1 & H2 & H3) Hle _ _. unfold I. simpl. lia.
  - intros idx st b loss st' (H1 & H2 & H3) Hle _ _ Hrep.
    apply report_block_spec in Hrep as (_ & _ & _ & Hbi & Hos & _).
    simpl in Hbi, Hos.
    destruct (guard idx loss) eqn:Eg.
    + unfold guard in Eg. apply andb_true_iff in Eg as [Eg _].
      split; [lia |]. exists idx. rewrite Hbi, Hos. repeat split; lia.
    + unfold I. rewrite Hos. lia.
  - unfold I. simpl. lia.
Qed.

(** X10.  The optimizer never steps beyond the budget nor beyond the
    data: the number of steps of a run is at most
    [max(0, num_steps - start_step)] and at most the number of batches;
    it is the number of batches when the loader ran out, and the whole
    rest of the budget when the loop ended at [batch_idx > num_steps],
    with the loop variable one past the last step. *)
Theorem train_loop_step_budget (batches : list batch) (ex : exit_reason)
    (st : locals) :
  train_loop cfg world_size start_step tokens_seen clock peers batches
    (start_step + 1) (init_locals clock) = Ok (ex, st) ->
  0 <= optimizer_steps st <= Z.max 0 (num_steps cfg - start_step) /\
  optimizer_steps st <= Z.of_nat (length batches) /\
  (ex = Exhausted -> optimizer_steps st = Z.of_nat (length batches)) /\
  (ex = BudgetReached ->
   optimizer_steps st = Z.max 0 (num_steps cfg - start_step) /\
   batch_idx st = Some (start_step + optimizer_steps st + 1)).
Proof.
  intros H. pose proof (train_loop_budget _ _ _ H) as [Hb Hex].
  pose proof (train_loop_consumes _ _ _ _ _ H) as [Hc He].
  simpl in Hc, He.
  split; [lia |]. split; [lia |]. split.
  - intros E. specialize (He E). lia.
  - intros ->. exact Hex.
Qed.

(** X11.  The divergence guard is silent during the warm-up: a run it
    ends has reached a step above 999 within the budget, so a run whose
    budget is at most 999 steps is never ended by it, whatever its
    losses. *)
Theorem guard_silent_in_warmup (batches : list batch) (ex : exit_reason)
    (st : locals) :
  num_steps cfg <= 999 ->
  train_loop cfg world_size start_step tokens_seen clock peers batches
    (start_step + 1) (init_locals clock) = Ok (ex, st) ->
  ex <> Diverged.
Proof.
  intros Hn H ->. apply train_loop_budget in H as [_ (k & _ & Hk & _)]. lia.
Qed.

(** X13.  With an empty loader, or resumed at or beyond its budget,
    [train] takes no step and does not return: rank 0 fails at the
    summary, every other rank at [torch.isnan(train_loss)]. *)
Theorem train_raises_without_steps (batches : list batch) :
  batches = [] \/ num_steps cfg <= start_step ->
  train cfg rank world_size start_step tokens_seen clock peers batches
  = Raise (if rank =? 0 then UnboundLocalError else TypeError).
Proof.
  intros [-> | Hn].
  - unfold train. cbn [train_loop]. rewrite bind_Ok. cbn beta iota.
    unfold print_summary, return_value. simpl.
    now destruct (rank =? 0).
  - destruct batches as [| b rest].
    + unfold train. cbn [train_loop]. rewrite bind_Ok. cbn beta iota.
      unfold print_summary, return_value. simpl.
      now destruct (rank =? 0).
    + unfold train. cbn [train_loop].
      replace (start_step + 1 >? num_steps cfg) with true by lia.
      rewrite bind_Ok. cbn beta iota.
      unfold print_summary, return_value. simpl.
      now destruct (rank =? 0).
Qed.


End TrainMore.

(** ** The world size and the token count are observational *)

Section TrainObservers.
Variable cfg : train_cfg.
Variable start_step : Z.
Variable clock : nat -> spec_float.
Variable peers : Z -> list stats.

Lemma report_block_same (ws ws' ts ts' k : Z) (s s' : locals) :
  same_but_tokens s s' ->
  match report_block cfg ws start_step ts clock peers k s,
        report_block cfg ws' start_step ts' clock peers k s' with
  | Ok (l, t), Ok (l', t') => l = l' /\ same_but_tokens t t'
  | Raise e, Raise e' => e = e'
  | _, _ => False
  end.
Proof.
  intros (H1 & H2 & H3 & H4 & H5 & H6 & H7 & H8).
  unfold report_block. rewrite H1, H2, H4, H6, H7, H8.
  destruct (float_of_int (report_interval cfg)) as [i |]; [| reflexivity].
  rewrite !bind_Ok.
  destruct (float_div _ i) as [t |]; [| reflexivity]. rewrite !bind_Ok.
  destruct (throughput cfg t) as [thr |]; [| reflexivity]. rewrite !bind_Ok.
  split; [reflexivity |]. unfold same_but_tokens, same_figures. simpl.
  repeat split.
Qed.

Lemma train_loop_same (ws ws' ts ts' : Z) (batches : list batch) :
  forall idx s s',
    same_but_tokens s s' ->
    same_outcome
      (train_loop cfg ws start_step ts clock peers batches idx s)
      (train_loop cfg ws' start_step ts' clock peers batches idx s').
Proof.
  induction batches as [| b rest IH]; intros idx s s' Hs.
  - simpl. done.
  - cbn [train_loop].
    assert (Hb : same_but_tokens (bind_batch_idx idx s)
                   (bind_batch_idx idx s')).
    { destruct Hs as (H1 & H2 & H3 & H4 & H5 & H6 & H7 & H8).
      unfold same_but_tokens. simpl. done. }
    destruct (idx >? num_steps cfg); [simpl; done |].
    assert (Ht : same_but_tokens (train_step b (bind_batch_idx idx s))
                   (train_step b (bind_batch_idx idx s'))).
    { destruct Hs as (H1 & H2 & H3 & H4 & H5 & H6 & H7 & H8).
      unfold same_but_tokens. simpl. rewrite H1, H7. done. }
    destruct (int_mod idx (report_interval cfg)) as [r |]; [| simpl; done].
    rewrite !bind_Ok. destruct (r =? 0); [| now apply IH].
    pose proof (report_block_same ws ws' ts ts' idx _ _ Ht) as Hr.
    destruct (report_block cfg ws start_step ts clock peers idx _)
      as [[l t] |],
      (report_block cfg ws' start_step ts' clock peers idx _)
      as [[l' t'] |]; try done.
    destruct Hr as [<- Hr]. rewrite !bind_Ok. cbn beta iota.
    destruct (guard idx l); [simpl; done | now apply IH].
Qed.

(** X12.  What [train] returns depends neither on the rank, nor on the
    world size read from the environment, nor on the token count it was
    resumed with: a run that returns a loss returns the same loss for
    any other values of the three. *)
Theorem train_result_ignores_observers (rank rank' ws ws' ts ts' : Z)
    (batches : list batch) (v : value) :
  train cfg rank ws start_step ts clock peers batches = Ok v ->
  train cfg rank' ws' start_step ts' clock peers batches = Ok v.
Proof.
  unfold train. intros H.
  pose proof (train_loop_same ws ws' ts ts' batches (start_step + 1)
                (init_locals clock) (init_locals clock)) as Hsame.
  pose proof (train_loop_loss_variable cfg ws start_step ts clock peers
                batches) as Hvar.
  destruct (train_loop cfg ws start_step ts clock peers batches _ _)
    as [[ex st] |]; [| discriminate].
  specialize (Hvar ex st eq_refl).
  destruct (train_loop cfg ws' start_step ts' clock peers batches _ _)
    as [[ex' st'] |].
  2: { exfalso. apply Hsame. unfold same_but_tokens, same_figures. done. }
  destruct Hsame as [_ (H1 & H2 & H3 & H4 & H5 & H6 & H7 & H8)];
    [unfold same_but_tokens, same_figures; done |].
  rewrite bind_Ok in *. cbn beta iota in *.
  apply bind_ok in H as (u & _ & H).
  assert (Hp : print_summary rank' st' = Ok tt).
  { unfold print_summary. destruct (rank' =? 0); [| done].
    destruct (reductions st) as [| r l].
    - destruct Hvar as (Htl & _). unfold return_value in H.
      rewrite Htl in H. discriminate.
    - destruct Hvar as (_ & [k Hk] & [rep Hrep] & _).
      rewrite <- H4, Hk. rewrite Hrep in H5.
      destruct (last_report st'); [done | now simpl in H5]. }
  rewrite Hp, bind_Ok. unfold return_value in *. now rewrite <- H3.
Qed.

End TrainObservers.

(** ** The learning-rate schedule *)

Lemma div_eucl_pair (a b : Z) : Z.div_eucl a b = (a / b, a mod b).
Proof. unfold Z.div, Z.modulo. now destruct (Z.div_eucl a b). Qed.

(** A positive integer divided by itself is exactly 1.0. *)
Lemma int_truediv_same (n : Z) : 0 < n -> int_truediv n n = Ok F64.one.
Proof.
  intros Hn. unfold int_truediv.
  replace (n =? 0) with false by lia.
  destruct n as [| p | p]; try lia.
  change (Z.pos p <? 0) with false. change (Z.to_pos (Z.abs (Z.pos p))) with p.
  assert (Hq : F64.div (S754_finite false p 0) (S754_finite false p 0)
               = F64.one).
  { unfold F64.div, SFdiv, SFdiv_core_binary.
    replace (Zdigits2 (Z.pos p) + 0 - (Zdigits2 (Z.pos p) + 0)) with 0
      by lia.
    change (Z.min (fexp F64.prec F64.emax 0) (0 - 0)) with (-53).
    change (0 - 0 - -53) with 53.
    cbv beta iota zeta.
    rewrite Z.shiftl_mul_pow2 by lia.
    rewrite div_eucl_pair, Z.mul_comm, Z.div_mul, Z.mod_mul by lia.
    cbv beta iota.
    assert (Hl : new_location (Z.pos p) 0 = loc_Exact).
    { unfold new_location. now destruct (Z.even (Z.pos p)). }
    rewrite Hl. reflexivity. }
  rewrite Hq. reflexivity.
Qed.

Section ScheduleFacts.
Variable libm_cos : spec_float -> spec_float.
Variable libm_sq : spec_float -> spec_float.
Variable training_stage : string.
Variable num_steps : Z.

(** X14.  Outside the annealing stage, a step budget below 20 makes the
    warm-up interval [min(2000, num_steps // 20)] zero, and the schedule
    raises [ZeroDivisionError] at every step, the first one included. *)
Theorem schedule_raises_on_short_budget (start_step x : Z) :
  training_stage <> "annealing"%string ->
  0 <= num_steps < 20 ->
  warmup_interval num_steps = 0 /\
  lr_lambda libm_cos libm_sq training_stage num_steps start_step x
  = Raise ZeroDivisionError.
Proof.
  intros Hs Hn.
  assert (Hw : warmup_interval num_steps = 0).
  { unfold warmup_interval. rewrite Z.div_small by lia. reflexivity. }
  split; [exact Hw |].
  unfold lr_lambda, schedule. rewrite decide_False by exact Hs.
  unfold cosine_schedule. rewrite Hw. reflexivity.
Qed.

Lemma schedule_annealing (x : Z) :
  training_stage = "annealing"%string ->
  schedule libm_cos libm_sq training_stage num_steps x
  = annealing_schedule num_steps x.
Proof. intros Hs. unfold schedule. now rewrite decide_True. Qed.

(** X15.  In the annealing stage, for every positive step budget, the
    schedule is exactly 1.0 at step 0 and exactly 0.0 at step
    [num_steps] (the step being the scheduler's count plus
    [start_step]); with a budget of 0 it raises [ZeroDivisionError] at
    every step. *)
Theorem annealing_schedule_endpoints (start_step : Z) :
  training_stage = "annealing"%string ->
  (0 < num_steps ->
   (forall x, x + start_step = 0 ->
      lr_lambda libm_cos libm_sq training_stage num_steps start_step x
      = Ok F64.one) /\
   (forall x, x + start_step = num_steps ->
      lr_lambda libm_cos libm_sq training_stage num_steps start_step x
      = Ok (S754_zero false))) /\
  (num_steps = 0 ->
   forall x,
     lr_lambda libm_cos libm_sq training_stage num_steps start_step x
     = Raise ZeroDivisionError).
Proof.
  intros Hs. unfold lr_lambda. split.
  - intros Hn. split; intros x ->.
    + rewrite schedule_annealing by done.
      unfold annealing_schedule, int_truediv.
      replace (num_steps =? 0) with false by lia.
      replace (num_steps <? 0) with false by lia. reflexivity.
    + rewrite schedule_annealing by done. unfold annealing_schedule.
      rewrite (int_truediv_same _ Hn). reflexivity.
  - intros Hn x. rewrite schedule_annealing by done.
    unfold annealing_schedule. rewrite Hn. reflexivity.
Qed.

End ScheduleFacts.

(** ** The further properties on concrete runs *)

Lemma search_trial_count_witness :
  search pow2_integral Scenario.trial_losses Scenario.explore_ratio
    Scenario.cfg Scenario.heap0 1 = Ok Extra.searched /\
  Z.of_nat (trials Extra.searched) = 1 + 12 * Z.max 0 1 /\
  length (mup_scale_vals Extra.searched) = length mup_params.
Proof.
  assert (H : search pow2_integral Scenario.trial_losses
                Scenario.explore_ratio Scenario.cfg Scenario.heap0 1
              = Ok Extra.searched)
    by (vm_cast_no_check (eq_refl (Ok Extra.searched))).
  split; [exact H |].
  exact (search_trial_count pow2_integral Scenario.trial_losses
           Scenario.explore_ratio Scenario.cfg Scenario.heap0 1 _ H).
Defined.

Lemma search_preserves_heap_witness :
  Scenario.heap0 !! Scenario.cfg = Some Scenario.base_cfg /\
  search pow2_integral Scenario.trial_losses Scenario.explore_ratio
    Scenario.cfg Scenario.heap0 1 = Ok Extra.searched /\
  s_heap Extra.searched !! Scenario.cfg = Some Scenario.base_cfg /\
  (forall l, is_Some (Scenario.heap0 !! l) ->
             s_heap Extra.searched !! l = Scenario.heap0 !! l) /\
  size (s_heap Extra.searched)
  = (size Scenario.heap0 + trials Extra.searched)%nat.
Proof.
  assert (Hc : Scenario.heap0 !! Scenario.cfg = Some Scenario.base_cfg)
    by reflexivity.
  assert (H : search pow2_integral Scenario.trial_losses
                Scenario.explore_ratio Scenario.cfg Scenario.heap0 1
              = Ok Extra.searched)
    by (vm_cast_no_check (eq_refl (Ok Extra.searched))).
  split; [exact Hc |]. split; [exact H |].
  exact (search_preserves_heap pow2_integral Scenario.trial_losses
           Scenario.explore_ratio Scenario.cfg Scenario.heap0
           Scenario.base_cfg 1 _ Hc H).
Defined.

Lemma search_keeps_baseline_loss_witness :
  search pow2_integral Scenario.trial_losses Scenario.explore_ratio
    Scenario.cfg Scenario.heap0 1 = Ok Extra.searched /\
  exists (h1 : heap) (new_cfg : loc),
    set_mups pow2_integral Scenario.explore_ratio Scenario.cfg
      Scenario.heap0 mup_params ((fun _ => VInt 0) <$> mup_params)
      = Ok (h1, new_cfg) /\
    Scenario.trial_losses 0%nat (default ∅ (h1 !! new_cfg))
      = Ok (best_loss Extra.searched).
Proof.
  assert (H : search pow2_integral Scenario.trial_losses
                Scenario.explore_ratio Scenario.cfg Scenario.heap0 1
              = Ok Extra.searched)
    by (vm_cast_no_check (eq_refl (Ok Extra.searched))).
  split; [exact H |].
  exact (search_keeps_baseline_loss pow2_integral Scenario.trial_losses
           Scenario.explore_ratio Scenario.cfg Scenario.heap0 1 _ H).
Defined.

Lemma advance_changes_one_coordinate_witness :
  advance pow2_integral Scenario.trial_losses Scenario.explore_ratio
    Scenario.cfg 0 2 Scenario.state2 = Ok Extra.advanced /\
  length (mup_scale_vals Extra.advanced)
  = length (mup_scale_vals Scenario.state2) /\
  (2 < length (mup_scale_vals Scenario.state2))%nat /\
  forall j', j' <> 2%nat ->
    mup_scale_vals Extra.advanced !! j'
    = mup_scale_vals Scenario.state2 !! j'.
Proof.
  assert (H : advance pow2_integral Scenario.trial_losses
                Scenario.explore_ratio Scenario.cfg 0 2 Scenario.state2
              = Ok Extra.advanced)
    by (vm_cast_no_check (eq_refl (Ok Extra.advanced))).
  split; [exact H |].
  exact (advance_changes_one_coordinate pow2_integral Scenario.trial_losses
           Scenario.explore_ratio Scenario.cfg 0 2 _ _ H).
Defined.

Lemma final_matches_set_mups_witness :
  Scenario.heap0 !! Scenario.cfg = Some Scenario.base_cfg /\
  length Scenario.some_vector = length mup_params /\
  set_mups pow2_integral Scenario.explore_ratio Scenario.cfg Scenario.heap0
    mup_params Scenario.some_vector
  = Ok ((Extra.derived Scenario.some_vector).1,
        (Extra.derived Scenario.some_vector).2) /\
  exists o',
    (Extra.derived Scenario.some_vector).1
      !! (Extra.derived Scenario.some_vector).2 = Some o' /\
    final pow2_integral Scenario.explore_ratio Scenario.cfg Scenario.heap0
      Scenario.some_vector = Ok (base_values o').
Proof.
  assert (Hc : Scenario.heap0 !! Scenario.cfg = Some Scenario.base_cfg)
    by reflexivity.
  assert (Hl : length Scenario.some_vector = length mup_params)
    by reflexivity.
  assert (H : set_mups pow2_integral Scenario.explore_ratio Scenario.cfg
                Scenario.heap0 mup_params Scenario.some_vector
              = Ok ((Extra.derived Scenario.some_vector).1,
                    (Extra.derived Scenario.some_vector).2))
    by (vm_cast_no_check
          (eq_refl (Ok ((Extra.derived Scenario.some_vector).1,
                        (Extra.derived Scenario.some_vector).2)))).
  split; [exact Hc |]. split; [exact Hl |]. split; [exact H |].
  exact (final_matches_set_mups pow2_integral Scenario.explore_ratio
           Scenario.cfg Scenario.heap0 _ Scenario.base_cfg
           Scenario.some_vector _ Hc Hl H).
Defined.

Lemma set_mups_short_vector_witness :
  Scenario.heap0 !! Scenario.cfg = Some Scenario.base_cfg /\
  set_mups pow2_integral Scenario.explore_ratio Scenario.cfg Scenario.heap0
    mup_params Extra.short_vector
  = Ok ((Extra.derived Extra.short_vector).1,
        (Extra.derived Extra.short_vector).2) /\
  exists o',
    (Extra.derived Extra.short_vector).1
      !! (Extra.derived Extra.short_vector).2 = Some o' /\
    forall i k, mup_params !! i = Some k ->
                (length Extra.short_vector <= i)%nat ->
                o' !! k = Scenario.base_cfg !! k.
Proof.
  assert (Hc : Scenario.heap0 !! Scenario.cfg = Some Scenario.base_cfg)
    by reflexivity.
  assert (H : set_mups pow2_integral Scenario.explore_ratio Scenario.cfg
                Scenario.heap0 mup_params Extra.short_vector
              = Ok ((Extra.derived Extra.short_vector).1,
                    (Extra.derived Extra.short_vector).2))
    by (vm_cast_no_check
          (eq_refl (Ok ((Extra.derived Extra.short_vector).1,
                        (Extra.derived Extra.short_vector).2)))).
  split; [exact Hc |]. split; [exact H |].
  exact (set_mups_short_vector pow2_integral Scenario.explore_ratio
           Scenario.cfg Scenario.heap0 _ Scenario.base_cfg
           Extra.short_vector _ Hc H).
Defined.

Lemma set_mups_missing_attribute_witness :
  Extra.partial_heap !! Scenario.cfg
    = Some (delete "mup_attn_init"%string Scenario.base_cfg) /\
  mup_params !! 3%nat = Some "mup_attn_init"%string /\
  (3 < length Scenario.some_vector)%nat /\
  delete "mup_attn_init"%string Scenario.base_cfg
    !! "mup_attn_init"%string = None /\
  set_mups pow2_integral Scenario.explore_ratio Scenario.cfg
    Extra.partial_heap mup_params Scenario.some_vector
  = Raise AttributeError.
Proof.
  assert (Hc : Extra.partial_heap !! Scenario.cfg
               = Some (delete "mup_attn_init"%string Scenario.base_cfg))
    by reflexivity.
  assert (Hk : mup_params !! 3%nat = Some "mup_attn_init"%string)
    by reflexivity.
  assert (Hi : (3 < length Scenario.some_vector)%nat) by (simpl; lia).
  assert (Hn : delete "mup_attn_init"%string Scenario.base_cfg
                 !! "mup_attn_init"%string = None) by reflexivity.
  split; [exact Hc |]. split; [exact Hk |]. split; [exact Hi |].
  split; [exact Hn |].
  apply (set_mups_missing_attribute pow2_integral Scenario.explore_ratio
           Scenario.cfg Extra.partial_heap _ mup_params
           Scenario.some_vector 3 _ Hc Hk Hi Hn).
  repeat constructor.
Defined.

Lemma train_never_returns_nan_witness :
  train Run.cfg 1 2 700 0 Run.clock (Run.peer 7) (Run.steady 7 400)
    = Ok (VFloat (F64.of_Z 7)) /\
  (VFloat (F64.of_Z 7) = VInt 100 \/
   exists f, VFloat (F64.of_Z 7) = VFloat f /\ is_nan f = false).
Proof.
  assert (H : train Run.cfg 1 2 700 0 Run.clock (Run.peer 7)
                (Run.steady 7 400) = Ok (VFloat (F64.of_Z 7)))
    by (vm_compute; reflexivity).
  split; [exact H |].
  exact (train_never_returns_nan Run.cfg 1 2 700 0 Run.clock (Run.peer 7)
           (Run.steady 7 400) _ H).
Defined.


Lemma train_loop_step_budget_witness :
  train_loop Run.cfg10 1 5 0 Run.clock Run.alone (Run.steady 2 40) (5 + 1)
    (init_locals Run.clock)
  = Ok (BudgetReached, Run.final_state Run.resumed) /\
  optimizer_steps (Run.final_state Run.resumed) = 25 /\
  batch_idx (Run.final_state Run.resumed) = Some 31.
Proof.
  assert (H : train_loop Run.cfg10 1 5 0 Run.clock Run.alone
                (Run.steady 2 40) (5 + 1) (init_locals Run.clock)
              = Ok (BudgetReached, Run.final_state Run.resumed))
    by (vm_compute; reflexivity).
  split; [exact H |].
  destruct (train_loop_step_budget Run.cfg10 1 5 0 Run.clock Run.alone
              (Run.steady 2 40) _ _ H) as (_ & _ & _ & Hb).
  destruct (Hb eq_refl) as [Hs Hi]. rewrite Hi, Hs. split; reflexivity.
Defined.

Lemma guard_silent_in_warmup_witness :
  num_steps Run.cfg10 <= 999 /\
  train_loop Run.cfg10 1 5 0 Run.clock Run.alone (Run.steady 2 40) (5 + 1)
    (init_locals Run.clock)
  = Ok (BudgetReached, Run.final_state Run.resumed) /\
  BudgetReached <> Diverged.
Proof.
  assert (Hn : num_steps Run.cfg10 <= 999) by (simpl; lia).
  assert (H : train_loop Run.cfg10 1 5 0 Run.clock Run.alone
                (Run.steady 2 40) (5 + 1) (init_locals Run.clock)
              = Ok (BudgetReached, Run.final_state Run.resumed))
    by (vm_compute; reflexivity).
  split; [exact Hn |]. split; [exact H |].
  exact (guard_silent_in_warmup Run.cfg10 1 5 0 Run.clock Run.alone
           (Run.steady 2 40) _ _ Hn H).
Defined.

Lemma train_result_ignores_observers_witness :
  train Run.cfg 1 2 700 0 Run.clock (Run.peer 7) (Run.steady 7 400)
    = Ok (VFloat (F64.of_Z 7)) /\
  train Run.cfg 0 8 700 123456 Run.clock (Run.peer 7) (Run.steady 7 400)
    = Ok (VFloat (F64.of_Z 7)).
Proof.
  assert (H : train Run.cfg 1 2 700 0 Run.clock (Run.peer 7)
                (Run.steady 7 400) = Ok (VFloat (F64.of_Z 7)))
    by (vm_compute; reflexivity).
  split; [exact H |].
  exact (train_result_ignores_observers Run.cfg 700 Run.clock (Run.peer 7)
           1 0 2 8 0 123456 (Run.steady 7 400) _ H).
Defined.

Lemma train_raises_without_steps_witness :
  (Run.steady 2 8 = [] \/ num_steps Run.cfg3 <= 3) /\
  train Run.cfg3 1 1 3 0 Run.clock Run.alone (Run.steady 2 8)
  = Raise TypeError.
Proof.
  assert (H : Run.steady 2 8 = [] \/ num_steps Run.cfg3 <= 3)
    by (right; simpl; lia).
  split; [exact H |].
  exact (train_raises_without_steps Run.cfg3 1 1 3 0 Run.clock Run.alone
           (Run.steady 2 8) H).
Defined.

Lemma schedule_raises_on_short_budget_witness :
  "pretraining"%string <> "annealing"%string /\ 0 <= 10 < 20 /\
  warmup_interval 10 = 0 /\
  lr_lambda Run.libm_unused Run.libm_unused "pretraining" 10 0 0
  = Raise ZeroDivisionError.
Proof.
  assert (Hs : "pretraining"%string <> "annealing"%string) by discriminate.
  assert (Hn : 0 <= 10 < 20) by lia.
  split; [exact Hs |]. split; [exact Hn |].
  exact (schedule_raises_on_short_budget Run.libm_unused
           Run.libm_unused "pretraining" 10 0 0 Hs Hn).
Defined.

Lemma annealing_schedule_endpoints_witness :
  "annealing"%string = "annealing"%string /\ 0 < 100 /\
  (forall x, x + 40 = 0 ->
     lr_lambda Run.libm_unused Run.libm_unused "annealing" 100 40 x
     = Ok F64.one) /\
  (forall x, x + 40 = 100 ->
     lr_lambda Run.libm_unused Run.libm_unused "annealing" 100 40 x
     = Ok (S754_zero false)).
Proof.
  assert (Hn : 0 < 100) by lia.
  split; [reflexivity |]. split; [exact Hn |].
  exact (proj1 (annealing_schedule_endpoints Run.libm_unused
                  Run.libm_unused "annealing" 100 40 eq_refl) Hn).
Defined.
